(** * OTC trading bot: rate-limited polling, rolling price history and
      RSI threshold-crossing signals

    A shallow embedding of [No-Trading-aportunity.py] (class [OTCTradingBot]).

    - Python floats that carry prices and oscillator readings are binary64
      values ([PrimFloat.float]); comparisons are the IEEE ones, so a [nan]
      reading compares false with every threshold, as in Python.
    - Clock readings ([time.time()]) and sleep durations are rationals: the
      clock is idealised, a sleep of [d] seconds advances it by exactly [d].
    - The bot object is a record, threaded through a small state and
      exception monad that also records the calls made to the outside world
      (HTTP requests, sleeps, Telegram messages, prints).
    - What the outside world answers (HTTP replies, delivery results) is an
      explicit input of every operation.
    - The oscillator library ([pandas_ta.rsi]) and [round] are not code of the
      repository: they are an interface ([Indicators]) the model is generic
      in. *)

From Stdlib Require Import Floats QArith Lqa ZArith.
From stdpp Require Import gmap strings list.

Local Open Scope Z_scope.

(** ** Configuration (lines 19-27) *)

Definition TIMEFRAME : string := "1min".
Definition UPDATE_INTERVAL : Q := 60%Q.
Definition HISTORY_LENGTH : nat := 100.
Definition RSI_PERIOD : nat := 14.
Definition RSI_OVERBOUGHT : float := 50%float.
Definition RSI_OVERSOLD : float := 40%float.
Definition MIN_PRICE_CHANGE : float := 0.5%float.
Definition RATE_LIMIT : Z := 6.

(** ** Data *)

(** Exceptions the modelled code can raise. *)
Inductive exn :=
| KeyError
| IndexError
| ValueError
| ZeroDivisionError
| TypeError
| TimeoutError
| ClientError
| LibraryError
| AttributeError
| TelegramError.

Definition exn_eqb (e1 e2 : exn) : bool :=
  match e1, e2 with
  | KeyError, KeyError | IndexError, IndexError | ValueError, ValueError
  | ZeroDivisionError, ZeroDivisionError | TypeError, TypeError
  | TimeoutError, TimeoutError | ClientError, ClientError
  | LibraryError, LibraryError | AttributeError, AttributeError
  | TelegramError, TelegramError => true
  | _, _ => false
  end.

(** Python's truth value of an optional text: [None] and the empty text are
    false. *)
Definition truthy (v : option string) : bool :=
  match v with
  | Some (String _ _) => true
  | _ => false
  end.

(** A field of a JSON object as the code meets it: absent (subscripting
    raises [KeyError]), present with a text the conversion rejects
    ([float(...)] or [datetime.fromisoformat(...)] raises [ValueError]), or
    present with the value it converts to. *)
Inductive field (A : Type) :=
| Missing
| Malformed
| Present (a : A).
Arguments Missing {A}.
Arguments Malformed {A}.
Arguments Present {A} a.

(** One element of the provider's ["values"] list. *)
Record bar := mkBar {
  bar_close : field float;
  bar_datetime : field string }.

(** The decoded JSON object of a response: the optional ["code"] and
    ["values"] members. *)
Record payload := mkPayload {
  code : option Z;
  values : option (list bar) }.

(** What [session.get] does for one request. *)
Inductive http_outcome :=
| GetTimedOut
| GetFailed
| Response (status : Z) (body : option payload).

(** The answer of the world to one request: how long it takes and how it ends.
    [body = None] stands for a body that [response.json()] cannot decode. *)
Record http_reply := mkReply {
  latency : Q;
  outcome : http_outcome }.

Inductive Signal := CALL | PUT | NONE.

(** The dictionary [analyze_pair] returns. *)
Record analysis := mkAnalysis {
  signal : Signal;
  price : float;
  rsi : float;
  timeframe : string;
  timestamp : Q }.

(** The dictionary [get_market_data] returns. *)
Record market_data := mkData {
  md_close : float;
  md_pair : string;
  md_timestamp : string }.

(** The two texts [send_signal] formats, by their contents. *)
Inductive message :=
| NoOpportunity (pair : string) (time : Q) (rsi_value price_value : float)
| SignalAlert (sig : Signal) (pair : string) (time : Q)
    (rsi_value price_value : float) (tf : string).

(** The lines the bot prints. *)
Inductive log :=
| LogRateLimit (wait_time : Q)
| LogApiStatus (status : Z)
| LogApiCode (c : Z)
| LogTimeout
| LogNetworkError
| LogFetching (pair : string) (history : bool)
| LogNoData (pair : string)
| LogSeeded (pair : string) (n : nat)
| LogPrice (pair : string) (ts : string) (p : float)
| LogInsufficient (pair : string) (n : nat)
| LogAnalysis (pair : string) (current_rsi price_change : float)
| LogAnalysisError (pair : string) (e : exn)
| LogCycleStarted (t : Q)
| LogRsiInfo (pair : string) (current_rsi prev_rsi : float)
| LogRsiInfoError (pair : string)
| LogWaiting
| LogMainLoopError (e : exn)
| LogSignalSent (pair : string)
| LogSendFailed
| LogBotStarted
| LogStartupSent
| LogChatIdFailed.

(** Calls to the outside world, in the order they happen. *)
Inductive event :=
| EvSleep (d : Q)
| EvGet (t : Q) (symbol : string) (outputsize : nat)
| EvSend (pair : string) (m : message) (delivered : bool)
| EvStartup (delivered : bool)
| EvPrint (l : log).

(** The attributes of the bot that the modelled methods read or write.
    [telegram_bot] tells whether [self.bot] is a Telegram client or [None]
    (no token configured, or [Bot(...)] failed, lines 35 and 43-48). The
    inner dictionary [price_history[pair]] has the single key ['close'], so
    the map goes from the pair to that list directly. *)
Record bot := mkBot {
  telegram_bot : bool;
  running : bool;
  price_history : gmap string (list float);
  last_api_call : Q;
  api_calls : Z;
  last_prediction : gmap string analysis }.

Record world := mkWorld {
  self : bot;
  clock : Q;
  trace : list event }.

(** ** The state and exception monad *)

Inductive result (A : Type) :=
| Return (a : A)
| Raise (e : exn).
Arguments Return {A} a.
Arguments Raise {A} e.

Definition run (A : Type) : Type := world -> result A * world.

Definition ret {A} (a : A) : run A := fun w => (Return a, w).

Definition raise {A} (e : exn) : run A := fun w => (Raise e, w).

Definition bind {A B} (c : run A) (k : A -> run B) : run B :=
  fun w =>
    match c w with
    | (Return a, w') => k a w'
    | (Raise e, w') => (Raise e, w')
    end.

(** [try: c except Exception as e: h e]: the writes [c] made before raising
    stay. *)
Definition try_except {A} (c : run A) (h : exn -> run A) : run A :=
  fun w =>
    match c w with
    | (Return a, w') => (Return a, w')
    | (Raise e, w') => h e w'
    end.

(** [try: c except E: h]: only the exception [E] is caught. *)
Definition try_only {A} (caught : exn) (c : run A) (h : run A) : run A :=
  fun w =>
    match c w with
    | (Return a, w') => (Return a, w')
    | (Raise e, w') => if exn_eqb e caught then h w' else (Raise e, w')
    end.

Declare Scope run_scope.
Delimit Scope run_scope with run.
Notation "'let*' x ':=' c 'in' k" := (bind c (fun x => k))
  (at level 10, x pattern, c at level 100, k at level 200) : run_scope.
Notation "c ';;' k" := (bind c (fun _ => k))
  (at level 100, k at level 200, right associativity) : run_scope.
Local Open Scope run_scope.

Definition emit (e : event) : run unit :=
  fun w => (Return tt, mkWorld (self w) (clock w) (trace w ++ [e])).

Definition print (l : log) : run unit := emit (EvPrint l).

Definition time_time : run Q := fun w => (Return (clock w), w).

Definition elapse (d : Q) : run unit :=
  fun w => (Return tt, mkWorld (self w) (clock w + d)%Q (trace w)).

(** [await asyncio.sleep(d)] *)
Definition sleep (d : Q) : run unit := emit (EvSleep d) ;; elapse d.

Definition get_self : run bot := fun w => (Return (self w), w).

Definition put_self (b : bot) : run unit :=
  fun w => (Return tt, mkWorld b (clock w) (trace w)).

Definition set_limiter (last : Q) (calls : Z) (b : bot) : bot :=
  mkBot (telegram_bot b) (running b) (price_history b) last calls
        (last_prediction b).

Definition set_history (pair : string) (closes : list float) (b : bot) : bot :=
  mkBot (telegram_bot b) (running b) (<[pair := closes]> (price_history b))
        (last_api_call b) (api_calls b) (last_prediction b).

Definition set_prediction (pair : string) (a : analysis) (b : bot) : bot :=
  mkBot (telegram_bot b) (running b) (price_history b) (last_api_call b)
        (api_calls b) (<[pair := a]> (last_prediction b)).

(** [d[k]] on a dictionary. *)
Definition subscript {A} (m : gmap string A) (k : string) : run A :=
  match m !! k with
  | Some v => ret v
  | None => raise KeyError
  end.

(** [float(b["close"])] and [datetime.fromisoformat(b["datetime"])]. *)
Definition convert {A} (f : field A) : run A :=
  match f with
  | Missing => raise KeyError
  | Malformed => raise ValueError
  | Present a => ret a
  end.

Definition Qltb (x y : Q) : bool := negb (Qle_bool y x).

(** ** api_request (lines 58-91) *)

(** Lines 60-65: when fewer than 60 seconds have passed since the last
    recorded call and the counter is at the quota, sleep for the rest of
    those 60 seconds and reset the counter. *)
Definition throttle : run unit :=
  let* now := time_time in
  let* b := get_self in
  if Qltb (now - last_api_call b) 60 && (RATE_LIMIT <=? api_calls b)
  then
    let wait_time := (60 - (now - last_api_call b))%Q in
    print (LogRateLimit wait_time) ;;
    sleep wait_time ;;
    let* b := get_self in
    put_self (set_limiter (last_api_call b) 0 b)
  else ret tt.

(** Lines 67-85: the request and what is made of the response. A request
    whose [session.get] raises leaves the two counters as they are. *)
Definition request (symbol : string) (outputsize : nat) (r : http_reply)
  : run (option payload) :=
  let* t := time_time in
  emit (EvGet t symbol outputsize) ;;
  elapse (latency r) ;;
  match outcome r with
  | GetTimedOut => raise TimeoutError
  | GetFailed => raise ClientError
  | Response status body =>
      let* t' := time_time in
      let* b := get_self in
      put_self (set_limiter t' (api_calls b + 1) b) ;;
      if negb (status =? 200) then
        print (LogApiStatus status) ;; ret None
      else
        match body with
        | None => raise ValueError
        | Some data =>
            match code data with
            | Some c =>
                if negb (c =? 200) then print (LogApiCode c) ;; ret None
                else ret (Some data)
            | None => ret (Some data)
            end
        end
  end.

Definition api_request (symbol : string) (outputsize : nat) (r : http_reply)
  : run (option payload) :=
  try_except
    (throttle ;; request symbol outputsize r)
    (fun e =>
       match e with
       | TimeoutError => print LogTimeout ;; ret None
       | _ => print LogNetworkError ;; ret None
       end).

(** ** get_market_data (lines 93-129) *)

(** [seq[-k]] for [k >= 1]. *)
Definition from_end {A} (l : list A) (k : nat) : run A :=
  match reverse l !! (k - 1)%nat with
  | Some x => ret x
  | None => raise IndexError
  end.

(** [[float(bar["close"]) for bar in bs]]: the first bar that cannot be
    converted raises. *)
Fixpoint closes_of (bs : list bar) : run (list float) :=
  match bs with
  | [] => ret []
  | b :: bs' =>
      let* c := convert (bar_close b) in
      let* cs := closes_of bs' in
      ret (c :: cs)
  end.

(** Lines 117-121: the seed replaces the history wholesale. *)
Definition seed (pair : string) (bars : list bar) : run unit :=
  let* closes := closes_of (reverse bars) in
  let* b := get_self in
  subscript (price_history b) pair ;;
  put_self (set_history pair closes b) ;;
  print (LogSeeded pair (length closes)).

(** Lines 124-126 on the list itself: [append(price)], then [pop(0)] when the
    list has grown past [HISTORY_LENGTH]. *)
Definition rolling_update (closes : list float) (p : float) : list float :=
  let closes := closes ++ [p] in
  if (HISTORY_LENGTH <? length closes)%nat then drop 1 closes else closes.

(** Lines 123-126: the rolling update of the list stored for [pair]. *)
Definition append (pair : string) (p : float) : run unit :=
  let* b := get_self in
  let* closes := subscript (price_history b) pair in
  put_self (set_history pair (rolling_update closes p) b).

Definition symbol_of (pair : string) : string := pair +:+ ":FOREX".

(** Lines 111-129: what is done with the bars of the response. *)
Definition ingest (pair : string) (history : bool) (bars : list bar)
  : run (option market_data) :=
  let* latest_bar :=
    match bars with
    | [] => raise IndexError
    | b :: _ => ret b
    end in
  let* p := convert (bar_close latest_bar) in
  let* ts := convert (bar_datetime latest_bar) in
  (if history then seed pair bars else append pair p) ;;
  print (LogPrice pair ts p) ;;
  ret (Some (mkData p pair ts)).

Definition get_market_data (pair : string) (history : bool) (r : http_reply)
  : run (option market_data) :=
  let outputsize := if history then HISTORY_LENGTH else 1%nat in
  print (LogFetching pair history) ;;
  let* data := api_request (symbol_of pair) outputsize r in
  match data with
  | None => print (LogNoData pair) ;; ret None
  | Some d =>
      match values d with
      | None => print (LogNoData pair) ;; ret None
      | Some bars => ingest pair history bars
      end
  end.

(** ** analyze_pair (lines 131-167) *)

(** What [ta.rsi] can do: raise, return [None], or return a series (the
    leading undefined entries of a series are [nan]). *)
Inductive rsi_outcome :=
| RsiRaises
| RsiNone
| RsiSeries (s : list float).

(** The library functions the analysis calls: [ta.rsi(close, length)] and
    [round(x, 2)]. *)
Class Indicators := {
  ta_rsi : list float -> nat -> rsi_outcome;
  round2 : float -> float }.

(** Lines 149-154; the gate on [price_change] of line 150 is commented out in
    the source. *)
Definition classify (current_rsi previous_rsi : float) : Signal :=
  if (current_rsi <=? RSI_OVERSOLD)%float
     && (RSI_OVERSOLD <? previous_rsi)%float
  then CALL
  else if (RSI_OVERBOUGHT <=? current_rsi)%float
          && (previous_rsi <? RSI_OVERBOUGHT)%float
  then PUT
  else NONE.

(** Python's [/] on floats raises on a zero divisor. *)
Definition float_div (x y : float) : run float :=
  if (y =? 0)%float then raise ZeroDivisionError else ret (x / y)%float.

(** Line 147. *)
Definition price_change_of (close_prices : list float) : run float :=
  if (1 <? length close_prices)%nat then
    let* current_price := from_end close_prices 1 in
    let* prev_price := from_end close_prices 2 in
    let* q := float_div (current_price - prev_price)%float prev_price in
    ret (abs (q * 100))%float
  else ret 0%float.

Section Analysis.
Context `{ind : Indicators}.

(** Lines 143-144: the two readings the classification uses. *)
Definition readings (s : list float) : run (float * float) :=
  let* last_value := from_end s 1 in
  let current_rsi := round2 last_value in
  if (1 <? length s)%nat then
    let* before_last := from_end s 2 in
    ret (current_rsi, round2 before_last)
  else ret (current_rsi, current_rsi).

(** The previous reading of a series [ss ++ [r0]] as line 144 takes it: the
    rounded value before the last one, or the current reading when the
    series has a single value. *)
Definition previous_reading (ss : list float) (r0 : float) : float :=
  match last ss with
  | Some r1 => round2 r1
  | None => round2 r0
  end.

(** Lines 138-163: the body of the [try]. *)
Definition analyze_body (pair : string) (close_prices : list float)
  : run (option analysis) :=
  match ta_rsi close_prices RSI_PERIOD with
  | RsiRaises => raise LibraryError
  | RsiNone => ret None
  | RsiSeries s =>
      if (length s =? 0)%nat then ret None
      else
        let* rs := readings s in
        let current_rsi := fst rs in
        let previous_rsi := snd rs in
        let* current_price := from_end close_prices 1 in
        let* price_change := price_change_of close_prices in
        let sig := classify current_rsi previous_rsi in
        print (LogAnalysis pair current_rsi price_change) ;;
        let* now := time_time in
        ret (Some (mkAnalysis sig current_price current_rsi TIMEFRAME now))
  end.

Definition analyze_pair (pair : string) : run (option analysis) :=
  let* b := get_self in
  let* close_prices := subscript (price_history b) pair in
  if (length close_prices <? RSI_PERIOD + 1)%nat then
    print (LogInsufficient pair (length close_prices)) ;; ret None
  else
    try_except (analyze_body pair close_prices)
      (fun e => print (LogAnalysisError pair e) ;; ret None).

(** ** send_signal (lines 211-239) *)

Definition format_message (a : analysis) (pair : string) : message :=
  match signal a with
  | NONE => NoOpportunity pair (timestamp a) (rsi a) (price a)
  | sig => SignalAlert sig pair (timestamp a) (rsi a) (price a) (timeframe a)
  end.

(** [delivered] tells whether [bot.send_message] returns or raises. Without
    a client, [self.bot.send_message] raises [AttributeError] before anything
    is handed to Telegram. Either exception is swallowed by the [except] of
    line 238. *)
Definition send_signal (a : analysis) (pair : string) (delivered : bool)
  : run unit :=
  let m := format_message a pair in
  try_except
    (let* b := get_self in
     if telegram_bot b then
       emit (EvSend pair m delivered) ;;
       if delivered then print (LogSignalSent pair) else raise TelegramError
     else raise AttributeError)
    (fun _ => print LogSendFailed).

(** ** start (lines 169-209) *)

(** What the world answers while one instrument is processed. *)
Record pair_input := mkInput {
  reply : http_reply;
  delivered : bool }.

(** Lines 187-196: the diagnostic print, with its own [try]. *)
Definition rsi_info (a : analysis) (pair : string) : run unit :=
  try_except
    (let* b := get_self in
     let* close_prices := subscript (price_history b) pair in
     match ta_rsi close_prices RSI_PERIOD with
     | RsiRaises => raise LibraryError
     | RsiNone => raise TypeError
     | RsiSeries s =>
         let* prev_rsi :=
           if (1 <? length s)%nat then from_end s 2 else ret (rsi a) in
         print (LogRsiInfo pair (rsi a) prev_rsi)
     end)
    (fun _ => print (LogRsiInfoError pair)).

(** Lines 199-202. *)
Definition notify (a : analysis) (pair : string) (d : bool) : run unit :=
  send_signal a pair d ;;
  match signal a with
  | NONE => ret tt
  | _ =>
      let* b := get_self in
      put_self (set_prediction pair a b)
  end.

(** Lines 182-202: the body of the [for] loop of one cycle. *)
Definition process_pair (pair : string) (i : pair_input) : run unit :=
  let* data := get_market_data pair false (reply i) in
  match data with
  | None => ret tt
  | Some _ =>
      let* a := analyze_pair pair in
      match a with
      | None => ret tt
      | Some an =>
          rsi_info an pair ;;
          notify an pair (delivered i)
      end
  end.

(** [for pair in pairs: ...], the world's answers given by position. *)
Fixpoint for_pairs (pairs : list string) (k : nat)
  (env : nat -> pair_input) : run unit :=
  match pairs with
  | [] => ret tt
  | p :: rest =>
      process_pair p (env k) ;;
      for_pairs rest (S k) env
  end.

Section Scheduler.
Variable TRADING_PAIRS : list string.

(** [os.getenv("CHAT_ID")]: a text, or [None] when the variable is not
    set. *)
Variable CHAT_ID : option string.

(** Lines 50-56. [hello] tells whether [bot.send_message] returns or raises
    its [TelegramError]; only that exception is caught. Without a client the
    attribute access raises [AttributeError], which leaves the method. *)
Definition verify_chat_id (hello : bool) : run unit :=
  try_only TelegramError
    (if truthy CHAT_ID then
       let* b := get_self in
       if telegram_bot b then
         emit (EvStartup hello) ;;
         if hello then print LogStartupSent else raise TelegramError
       else raise AttributeError
     else ret tt)
    (print LogChatIdFailed).

(** Lines 179-209: one iteration of the [while] loop. *)
Definition cycle (env : nat -> pair_input) : run unit :=
  try_except
    (let* now := time_time in
     print (LogCycleStarted now) ;;
     for_pairs TRADING_PAIRS 0 env ;;
     print LogWaiting ;;
     sleep UPDATE_INTERVAL)
    (fun e => print (LogMainLoopError e) ;; sleep 5).

(** Lines 175-176: the seeding loop; it has no handler. *)
Fixpoint seed_pairs (pairs : list string) (k : nat)
  (env : nat -> http_reply) : run unit :=
  match pairs with
  | [] => ret tt
  | p :: rest =>
      get_market_data p true (env k) ;;
      seed_pairs rest (S k) env
  end.

(** The [while self.running] loop, for as many iterations as the list
    gives answers for. *)
Fixpoint cycles (envs : list (nat -> pair_input)) : run unit :=
  match envs with
  | [] => ret tt
  | env :: rest => cycle env ;; cycles rest
  end.

(** [start] (lines 169-209): the start-up message, the seeding loop, then
    the cycles. Opening the HTTP session (line 170) touches none of the
    attributes modelled here. *)
Definition start (hello : bool) (seeds : nat -> http_reply)
  (envs : list (nat -> pair_input)) : run unit :=
  print LogBotStarted ;;
  verify_chat_id hello ;;
  seed_pairs TRADING_PAIRS 0 seeds ;;
  cycles envs.

(** [__init__] (lines 35-48) with an API key configured. [client] tells
    whether a Telegram token is configured and [Bot(...)] returned. *)
Definition init_bot (client : bool) : bot :=
  mkBot client true (list_to_map ((fun p => (p, [])) <$> TRADING_PAIRS)) 0 0
        ∅.
End Scheduler.
End Analysis.

(** ** What a run shows to the outside *)

Definition sent (e : event) : option (string * message) :=
  match e with
  | EvSend p m _ => Some (p, m)
  | _ => None
  end.

(** The messages [send_signal] handed to Telegram, oldest first (the
    start-up text of [verify_chat_id] is the event [EvStartup]). *)
Definition sends (tr : list event) : list (string * message) := omap sent tr.

Definition issued (e : event) : option (Q * string) :=
  match e with
  | EvGet t s _ => Some (t, s)
  | _ => None
  end.

(** The HTTP requests issued, each with the time it was issued at. *)
Definition gets (tr : list event) : list (Q * string) := omap issued tr.

Definition slept (e : event) : option Q :=
  match e with
  | EvSleep d => Some d
  | _ => None
  end.

Definition sleeps (tr : list event) : list Q := omap slept tr.

Definition requested (e : event) : option (string * nat) :=
  match e with
  | EvGet _ s n => Some (s, n)
  | _ => None
  end.

(** The HTTP requests issued, each with its symbol and output size. *)
Definition requests (tr : list event) : list (string * nat) :=
  omap requested tr.

(** The rate limiter sleeps for this call. *)
Definition throttled (w : world) : bool :=
  Qltb (clock w - last_api_call (self w)) 60
  && (RATE_LIMIT <=? api_calls (self w)).

(** The decoded body passes the check of line 81. *)
Definition accepted (d : payload) : bool :=
  match code d with
  | Some c => c =? 200
  | None => true
  end.

(** The bars a reply hands to the fetcher: the ["values"] of a body that
    [api_request] returns. *)
Definition fetched (r : http_reply) : option (list bar) :=
  match outcome r with
  | Response status (Some d) =>
      if (status =? 200) && accepted d then values d else None
  | _ => None
  end.

(** The request gets a response (of any status): the two counters of the
    limiter are updated. *)
Definition responded (r : http_reply) : bool :=
  match outcome r with
  | Response _ _ => true
  | _ => false
  end.

(** A caller that issues one request after another, idle for [gap] seconds
    before each. *)
Fixpoint polls (symbol : string) (rs : list (Q * http_reply)) : run unit :=
  match rs with
  | [] => ret tt
  | (gap, r) :: rest =>
      elapse gap ;;
      api_request symbol 1 r ;;
      polls symbol rest
  end.

(** The two ways the code changes a stored history. *)
Inductive mutation :=
| Seed (pair : string) (bars : list bar)
| Append (pair : string) (p : float).

Definition mutate (m : mutation) : run unit :=
  match m with
  | Seed k bars => seed k bars
  | Append k p => append k p
  end.

(** The world after a sequence of mutations; a mutation that raises is
    abandoned and the next one still happens. *)
Definition after (ms : list mutation) (w : world) : world :=
  fold_left (fun w m => snd (mutate m w)) ms w.

Definition small_seed (m : mutation) : Prop :=
  match m with
  | Seed _ bars => (length bars <= HISTORY_LENGTH)%nat
  | Append _ _ => True
  end.

(** Every stored history is within the capacity. *)
Definition bounded (b : bot) : Prop :=
  forall (pair : string) (h : list float),
    price_history b !! pair = Some h -> (length h <= HISTORY_LENGTH)%nat.

(** ** A sample instance of the library interface

    Used to run the model on concrete inputs: a relative strength index over
    simple averages of the last [n] gains and losses, undefined ([nan]) for
    the first [n] samples, and rounding to two decimals by
    [rint(x * 100) / 100]. *)
Module Sample.

Fixpoint diffs (l : list float) : list float :=
  match l with
  | a :: (b :: _) as t => (b - a)%float :: diffs t
  | _ => []
  end.

Definition gain (d : float) : float :=
  if (0 <? d)%float then d else 0%float.

Definition loss (d : float) : float :=
  if (d <? 0)%float then (- d)%float else 0%float.

Definition total (l : list float) : float := foldr PrimFloat.add 0%float l.

Definition rsi_window (w : list float) : float :=
  let g := total (gain <$> diffs w) in
  let l := total (loss <$> diffs w) in
  (100 * g / (g + l))%float.

Definition sma_rsi (close : list float) (n : nat) : rsi_outcome :=
  if (length close <? n)%nat then RsiNone
  else RsiSeries
         ((fun i => if (i <? n)%nat then nan
                    else rsi_window (take (S n) (drop (i - n) close)))
            <$> seq 0 (length close)).

(** Round to the nearest integer, ties to even, for [|x| < 2^51]. *)
Definition rint (x : float) : float :=
  ((x + 6755399441055744) - 6755399441055744)%float.

Definition np_round2 (x : float) : float := (rint (x * 100) / 100)%float.

#[export] Instance indicators : Indicators :=
  {| ta_rsi := sma_rsi; round2 := np_round2 |}.

Definition bot_with (pair : string) (h : list float) : bot :=
  mkBot true true {[ pair := h ]} 0 0 ∅.

Definition world_with (pair : string) (h : list float) : world :=
  mkWorld (bot_with pair h) 1000 [].

(** Fourteen flat closes, a fall to zero, a rise: readings 0 then 75. *)
Definition through_zero : list float :=
  repeat 10%float 14 ++ [0; 30]%float.

(** The same moves ten units higher: readings 0 then 75. *)
Definition above_zero : list float :=
  repeat 20%float 14 ++ [10; 40]%float.

(** A fall then a rise on a low price: the last change is 600%%. *)
Definition big_move : list float :=
  repeat 10%float 14 ++ [5; 35]%float.

(** The same moves on a high price: the last change is about 0.3%%. *)
Definition small_move : list float :=
  repeat 10000%float 14 ++ [9995; 10025]%float.

Definition good_bar (c : float) : bar :=
  mkBar (Present c) (Present "2024-01-01 00:00:00").

Definition ok_reply (bars : list bar) : http_reply :=
  mkReply (1 # 2) (Response 200 (Some (mkPayload None (Some bars)))).

(** A bar without its ["close"] member. *)
Definition no_close : bar := mkBar Missing (Present "2024-01-01 00:00:00").

(** A well-formed answer that arrives at once. *)
Definition instant_reply : http_reply :=
  mkReply 0 (Response 200 (Some (mkPayload None (Some [good_bar 1])))).

(** Fifteen flat closes. *)
Definition flat : list float := repeat 10%float 15.

(** A bot that follows two pairs, each with fifteen closes. *)
Definition two_pairs : world :=
  mkWorld
    (mkBot true true (list_to_map [("EUR/USD", flat); ("USD/JPY", flat)]) 0 0
       ∅)
    1000 [].

(** As [two_pairs], for a bot without a Telegram client. *)
Definition no_client : world :=
  mkWorld
    (mkBot false true (list_to_map [("EUR/USD", flat); ("USD/JPY", flat)]) 0 0
       ∅)
    1000 [].

(** Every instrument gets a well-formed bar and its message is delivered. *)
Definition all_good (k : nat) : pair_input :=
  mkInput (ok_reply [good_bar 10]) true.

(** As [all_good], but the bar of the first instrument has no ["close"]. *)
Definition malformed_first (k : nat) : pair_input :=
  match k with
  | O => mkInput (ok_reply [no_close]) true
  | S _ => mkInput (ok_reply [good_bar 10]) true
  end.

(** The request of every instrument times out. *)
Definition all_timed_out (k : nat) : pair_input :=
  mkInput (mkReply 5 GetTimedOut) true.

(** An oscillator library that raises on every call, with the rounding of
    [np_round2]. *)
Definition failing : Indicators :=
  {| ta_rsi := fun _ _ => RsiRaises; round2 := np_round2 |}.

End Sample.

(** * Properties *)

(** ** Comparisons of binary64 values *)

Lemma SFcompare_antisym (x y : spec_float) :
  SFcompare y x = CompOpp <$> SFcompare x y.
Proof.
  destruct x as [sx|sx| |sx mx ex], y as [sy|sy| |sy my ey]; simpl;
    try reflexivity; try (destruct sx; reflexivity);
    try (destruct sy; reflexivity); try (destruct sx, sy; reflexivity).
  destruct sx, sy; simpl; try reflexivity;
    rewrite (Z.compare_antisym ey ex);
    destruct (ey ?= ex)%Z eqn:E; simpl; try reflexivity;
    pose proof (Pos.compare_cont_antisym mx my Eq) as HH; simpl in HH;
    rewrite <- HH; destruct (Pos.compare_cont Eq mx my); reflexivity.
Qed.

(** [x <= y] excludes [y < x], also for [nan] and the infinities. *)
Lemma leb_not_gtb (x y : float) :
  (x <=? y)%float = true -> (y <? x)%float = false.
Proof.
  rewrite leb_spec, ltb_spec. unfold SFleb, SFltb.
  rewrite (SFcompare_antisym (Prim2SF x) (Prim2SF y)).
  destruct (SFcompare (Prim2SF x) (Prim2SF y)) as [[]|]; simpl; congruence.
Qed.

Lemma oversold_bits :
  Prim2SF RSI_OVERSOLD = S754_finite false 5629499534213120 (-47).
Proof. vm_compute. reflexivity. Qed.

Lemma overbought_bits :
  Prim2SF RSI_OVERBOUGHT = S754_finite false 7036874417766400 (-47).
Proof. vm_compute. reflexivity. Qed.

(** No reading is both at or below 40 and at or above 50. *)
Lemma oversold_below_overbought (c : float) :
  (c <=? RSI_OVERSOLD)%float = true -> (RSI_OVERBOUGHT <=? c)%float = false.
Proof.
  rewrite !leb_spec. unfold SFleb. rewrite oversold_bits, overbought_bits.
  destruct (Prim2SF c) as [s|s| |s m e]; cbn [SFcompare]; try congruence;
    try (destruct s; congruence).
  destruct s; [reflexivity|].
  rewrite (Z.compare_antisym e (-47)).
  destruct (e ?= -47)%Z eqn:E; cbn [CompOpp]; try congruence.
  rewrite !Pos.compare_cont_spec.
  rewrite (Pos.compare_antisym m 7036874417766400).
  destruct (Pos.compare_spec m 5629499534213120) as [E1|E1|E1];
    destruct (Pos.compare_spec m 7036874417766400) as [E2|E2|E2];
    cbn [Pos.switch_Eq CompOpp]; try discriminate;
    try (intros _; reflexivity); intros _; exfalso; clear E c e;
    try (subst m; discriminate).
  assert (Hab : (5629499534213120 < 7036874417766400)%positive)
    by reflexivity.
  exact (Pos.lt_irrefl _ (Pos.lt_trans _ _ _ E2 (Pos.lt_trans _ _ _ E1 Hab))).
Qed.

(** ** The classification (lines 149-154) *)

Lemma classify_call (c p : float) :
  classify c p = CALL
  <-> (c <=? RSI_OVERSOLD)%float = true /\ (RSI_OVERSOLD <? p)%float = true.
Proof.
  unfold classify.
  destruct (c <=? RSI_OVERSOLD)%float, (RSI_OVERSOLD <? p)%float,
    (RSI_OVERBOUGHT <=? c)%float, (p <? RSI_OVERBOUGHT)%float; simpl;
    intuition congruence.
Qed.

Lemma classify_put (c p : float) :
  classify c p = PUT
  <-> (RSI_OVERBOUGHT <=? c)%float = true /\ (p <? RSI_OVERBOUGHT)%float = true.
Proof.
  unfold classify.
  pose proof (oversold_below_overbought c) as Hx.
  destruct (c <=? RSI_OVERSOLD)%float, (RSI_OVERSOLD <? p)%float,
    (RSI_OVERBOUGHT <=? c)%float, (p <? RSI_OVERBOUGHT)%float; simpl;
    intuition congruence.
Qed.

Lemma classify_none (c p : float) :
  classify c p = NONE
  <-> ~ ((c <=? RSI_OVERSOLD)%float = true /\ (RSI_OVERSOLD <? p)%float = true)
      /\ ~ ((RSI_OVERBOUGHT <=? c)%float = true
            /\ (p <? RSI_OVERBOUGHT)%float = true).
Proof.
  rewrite <- classify_call, <- classify_put.
  destruct (classify c p); intuition congruence.
Qed.

(** A reading equal to the one before is never a crossing. *)
Lemma classify_plateau (c : float) : classify c c = NONE.
Proof.
  apply classify_none. split; intros [H1 H2].
  - apply leb_not_gtb in H1. congruence.
  - apply leb_not_gtb in H1. congruence.
Qed.

(** ** Indexing from the end, the price change, the readings *)


Lemma from_end_1 {A} (l : list A) (x : A) (w : world) :
  from_end (l ++ [x]) 1 w = (Return x, w).
Proof. unfold from_end. rewrite reverse_snoc. reflexivity. Qed.

Lemma from_end_2 {A} (l : list A) (x y : A) (w : world) :
  from_end (l ++ [x; y]) 2 w = (Return x, w).
Proof.
  unfold from_end.
  change (l ++ [x; y]) with (l ++ [x] ++ [y]).
  rewrite app_assoc, !reverse_snoc. reflexivity.
Qed.

Lemma price_change_of_two (hs : list float) (p1 p0 : float) (w : world) :
  (p1 =? 0)%float = false ->
  price_change_of (hs ++ [p1; p0]) w
  = (Return (abs ((p0 - p1) / p1 * 100))%float, w).
Proof.
  intros Hp. unfold price_change_of.
  replace (1 <? length (hs ++ [p1; p0]))%nat with true
    by (symmetry; apply Nat.ltb_lt; rewrite length_app; simpl; lia).
  unfold bind.
  change (hs ++ [p1; p0]) with (hs ++ [p1] ++ [p0]) at 1.
  rewrite app_assoc, from_end_1, from_end_2.
  unfold float_div. rewrite Hp. reflexivity.
Qed.

Lemma price_change_of_zero (hs : list float) (p1 p0 : float) (w : world) :
  (p1 =? 0)%float = true ->
  price_change_of (hs ++ [p1; p0]) w = (Raise ZeroDivisionError, w).
Proof.
  intros Hp. unfold price_change_of.
  replace (1 <? length (hs ++ [p1; p0]))%nat with true
    by (symmetry; apply Nat.ltb_lt; rewrite length_app; simpl; lia).
  unfold bind.
  change (hs ++ [p1; p0]) with (hs ++ [p1] ++ [p0]) at 1.
  rewrite app_assoc, from_end_1, from_end_2.
  unfold float_div. rewrite Hp. reflexivity.
Qed.

Section AnalysisFacts.
Context `{ind : Indicators}.

Lemma readings_two (ss : list float) (r1 r0 : float) (w : world) :
  readings (ss ++ [r1; r0]) w = (Return (round2 r0, round2 r1), w).
Proof.
  unfold readings, bind.
  change (ss ++ [r1; r0]) with (ss ++ [r1] ++ [r0]) at 1.
  rewrite app_assoc, from_end_1.
  replace (1 <? length (ss ++ [r1; r0]))%nat with true
    by (symmetry; apply Nat.ltb_lt; rewrite length_app; simpl; lia).
  rewrite from_end_2. reflexivity.
Qed.

Lemma readings_one (r0 : float) (w : world) :
  readings [r0] w = (Return (round2 r0, round2 r0), w).
Proof. reflexivity. Qed.

Lemma readings_snoc (ss : list float) (r0 : float) (w : world) :
  readings (ss ++ [r0]) w = (Return (round2 r0, previous_reading ss r0), w).
Proof.
  unfold previous_reading. destruct (last ss) as [r1|] eqn:E.
  - apply last_Some in E. destruct E as [ss' ->].
    rewrite <- app_assoc. apply readings_two.
  - apply last_None in E. subst ss. apply readings_one.
Qed.

Lemma analyze_pair_some (pair : string) (w : world)
    (hs : list float) (p1 p0 : float) (ss : list float) (r0 : float) :
  price_history (self w) !! pair = Some (hs ++ [p1; p0]) ->
  (RSI_PERIOD + 1 <= length (hs ++ [p1; p0]))%nat ->
  ta_rsi (hs ++ [p1; p0]) RSI_PERIOD = RsiSeries (ss ++ [r0]) ->
  (p1 =? 0)%float = false ->
  analyze_pair pair w
  = (Return (Some (mkAnalysis (classify (round2 r0) (previous_reading ss r0)) p0
                     (round2 r0) TIMEFRAME (clock w))),
     mkWorld (self w) (clock w)
       (trace w ++ [EvPrint (LogAnalysis pair (round2 r0)
                               (abs ((p0 - p1) / p1 * 100))%float)])).
Proof.
  intros Hh Hlen Hrsi Hp.
  unfold analyze_pair, bind, get_self, subscript. rewrite Hh. unfold ret.
  replace (length (hs ++ [p1; p0]) <? RSI_PERIOD + 1)%nat with false
    by (symmetry; apply Nat.ltb_ge; exact Hlen).
  unfold try_except, analyze_body. rewrite Hrsi.
  replace (length (ss ++ [r0]) =? 0)%nat with false
    by (symmetry; apply Nat.eqb_neq; rewrite length_app; simpl; lia).
  unfold bind. rewrite readings_snoc.
  change (hs ++ [p1; p0]) with (hs ++ [p1] ++ [p0]) at 1.
  rewrite app_assoc, from_end_1.
  rewrite price_change_of_two by exact Hp.
  reflexivity.
Qed.

Lemma analyze_pair_zero_price (pair : string) (w : world)
    (hs : list float) (p1 p0 : float) (ss : list float) (r0 : float) :
  price_history (self w) !! pair = Some (hs ++ [p1; p0]) ->
  (RSI_PERIOD + 1 <= length (hs ++ [p1; p0]))%nat ->
  ta_rsi (hs ++ [p1; p0]) RSI_PERIOD = RsiSeries (ss ++ [r0]) ->
  (p1 =? 0)%float = true ->
  analyze_pair pair w
  = (Return None,
     mkWorld (self w) (clock w)
       (trace w ++ [EvPrint (LogAnalysisError pair ZeroDivisionError)])).
Proof.
  intros Hh Hlen Hrsi Hp.
  unfold analyze_pair, bind, get_self, subscript. rewrite Hh. unfold ret.
  replace (length (hs ++ [p1; p0]) <? RSI_PERIOD + 1)%nat with false
    by (symmetry; apply Nat.ltb_ge; exact Hlen).
  unfold try_except, analyze_body. rewrite Hrsi.
  replace (length (ss ++ [r0]) =? 0)%nat with false
    by (symmetry; apply Nat.eqb_neq; rewrite length_app; simpl; lia).
  unfold bind. rewrite readings_snoc.
  change (hs ++ [p1; p0]) with (hs ++ [p1] ++ [p0]) at 1.
  rewrite app_assoc, from_end_1.
  rewrite price_change_of_zero by exact Hp.
  reflexivity.
Qed.

(** ** Signal detection *)

(** X21. A history of at least [RSI_PERIOD + 1] closes whose
    second most recent close is not zero, on which the oscillator yields a
    series that is not empty, [ss ++ [r0]]: the analysis returns a result,
    and its signal classifies the rounded readings [current = round2 r0] and
    [previous] (the rounded value before [r0], or [current] when there is
    none): CALL exactly when [current <= 40] and [previous > 40], PUT exactly
    when [current >= 50] and [previous < 50], NONE exactly when neither
    holds; equal readings give NONE. *)
Theorem analyze_pair_crossing (pair : string) (w : world)
    (hs : list float) (p1 p0 : float) (ss : list float) (r0 : float) :
  price_history (self w) !! pair = Some (hs ++ [p1; p0]) ->
  (RSI_PERIOD + 1 <= length (hs ++ [p1; p0]))%nat ->
  ta_rsi (hs ++ [p1; p0]) RSI_PERIOD = RsiSeries (ss ++ [r0]) ->
  (p1 =? 0)%float = false ->
  let current := round2 r0 in
  let previous := previous_reading ss r0 in
  let call := (current <=? RSI_OVERSOLD)%float = true
              /\ (RSI_OVERSOLD <? previous)%float = true in
  let put := (RSI_OVERBOUGHT <=? current)%float = true
             /\ (previous <? RSI_OVERBOUGHT)%float = true in
  exists a : analysis,
    fst (analyze_pair pair w) = Return (Some a)
    /\ rsi a = current
    /\ price a = p0
    /\ (signal a = CALL <-> call)
    /\ (signal a = PUT <-> put)
    /\ (signal a = NONE <-> ~ call /\ ~ put)
    /\ (current = previous -> signal a = NONE).
Proof.
  intros Hh Hlen Hrsi Hp current previous call put.
  rewrite (analyze_pair_some pair w hs p1 p0 ss r0 Hh Hlen Hrsi Hp).
  eexists. split; [reflexivity|]. cbn [rsi price signal].
  split; [reflexivity|]. split; [reflexivity|].
  split; [apply classify_call|]. split; [apply classify_put|].
  split; [apply classify_none|].
  intros Heq. fold current previous. rewrite <- Heq. apply classify_plateau.
Qed.

(** C6. An instrument whose history holds [RSI_PERIOD] or fewer closes:
    the analysis returns [None] without raising, and only prints the
    "insufficient data" line. *)
Theorem insufficient_history (pair : string) (w : world) (h : list float) :
  price_history (self w) !! pair = Some h ->
  (length h <= RSI_PERIOD)%nat ->
  analyze_pair pair w
  = (Return None,
     mkWorld (self w) (clock w)
       (trace w ++ [EvPrint (LogInsufficient pair (length h))])).
Proof.
  intros Hh Hlen.
  unfold analyze_pair, bind, get_self, subscript. rewrite Hh. unfold ret.
  replace (length h <? RSI_PERIOD + 1)%nat with true
    by (symmetry; apply Nat.ltb_lt; lia).
  reflexivity.
Qed.

(** X22. Two histories on which the analysis completes (at least
    [RSI_PERIOD + 1] closes, a second most recent close that is not zero, a
    series that is not empty) and whose rounded readings agree: both analyses
    return a result, with the same signal, the classification of the
    readings, whatever the prices and their change are. *)
Theorem signal_from_readings_only
    (pair1 : string) (w1 : world) (hs1 : list float) (p1 p0 : float)
    (ss1 : list float) (r0 : float)
    (pair2 : string) (w2 : world) (hs2 : list float) (q1 q0 : float)
    (ss2 : list float) (t0 : float) :
  price_history (self w1) !! pair1 = Some (hs1 ++ [p1; p0]) ->
  (RSI_PERIOD + 1 <= length (hs1 ++ [p1; p0]))%nat ->
  ta_rsi (hs1 ++ [p1; p0]) RSI_PERIOD = RsiSeries (ss1 ++ [r0]) ->
  (p1 =? 0)%float = false ->
  price_history (self w2) !! pair2 = Some (hs2 ++ [q1; q0]) ->
  (RSI_PERIOD + 1 <= length (hs2 ++ [q1; q0]))%nat ->
  ta_rsi (hs2 ++ [q1; q0]) RSI_PERIOD = RsiSeries (ss2 ++ [t0]) ->
  (q1 =? 0)%float = false ->
  round2 r0 = round2 t0 ->
  previous_reading ss1 r0 = previous_reading ss2 t0 ->
  exists a1 a2 : analysis,
    fst (analyze_pair pair1 w1) = Return (Some a1)
    /\ fst (analyze_pair pair2 w2) = Return (Some a2)
    /\ signal a1 = signal a2
    /\ signal a1 = classify (round2 r0) (previous_reading ss1 r0).
Proof.
  intros Hh1 Hl1 Hr1 Hp1 Hh2 Hl2 Hr2 Hp2 E0 E1.
  rewrite (analyze_pair_some pair1 w1 hs1 p1 p0 ss1 r0 Hh1 Hl1 Hr1 Hp1).
  rewrite (analyze_pair_some pair2 w2 hs2 q1 q0 ss2 t0 Hh2 Hl2 Hr2 Hp2).
  do 2 eexists. split; [reflexivity|]. split; [reflexivity|].
  cbn [signal]. rewrite E0, E1. split; reflexivity.
Qed.
End AnalysisFacts.

(** The examples of the specification: 55 then 45 is no crossing, 41 then 39
    is a CALL, 49 then 51 is a PUT, 35 then 35 is nothing. *)
Example classify_examples :
  classify 45 55 = NONE /\ classify 39 41 = CALL
  /\ classify 51 49 = PUT /\ classify 35 35 = NONE.
Proof. repeat split; reflexivity. Qed.

(** An undefined previous reading ([nan], the only reading before the
    fifteenth sample) never gives a signal. *)
Example classify_nan : classify 30 nan = NONE /\ classify 70 nan = NONE.
Proof. split; reflexivity. Qed.

Lemma analyze_pair_crossing_witness :
  exists a : analysis,
    fst (analyze_pair (ind := Sample.indicators) "EUR/USD"
           (Sample.world_with "EUR/USD" Sample.big_move))
    = Return (Some a)
    /\ signal a = PUT.
Proof.
  destruct (analyze_pair_crossing (ind := Sample.indicators) "EUR/USD"
              (Sample.world_with "EUR/USD" Sample.big_move)
              (repeat 10%float 14) 5%float 35%float
              (repeat nan 14 ++ [0%float])
              (Sample.rsi_window (drop 1 Sample.big_move)))
    as (a & Ha & _ & _ & _ & Hput & _).
  - reflexivity.
  - vm_compute. lia.
  - vm_compute. reflexivity.
  - reflexivity.
  - exists a. split; [exact Ha|]. apply Hput. split; reflexivity.
Defined.

(** C1, the failing input. Sixteen closes whose readings are 0 then 75, an
    upward crossing of 50, with a second most recent close of zero: the
    division of line 147 raises, the analysis prints the error and returns
    [None]; no classification is made. *)
Lemma crossing_lost_on_zero_price :
  (RSI_PERIOD + 1 <= length Sample.through_zero)%nat
  /\ ta_rsi (Indicators := Sample.indicators) Sample.through_zero RSI_PERIOD
     = RsiSeries (repeat nan 14 ++ [0; 75]%float)
  /\ classify (Sample.np_round2 75) (Sample.np_round2 0) = PUT
  /\ analyze_pair (ind := Sample.indicators) "EUR/USD"
       (Sample.world_with "EUR/USD" Sample.through_zero)
     = (Return None,
        mkWorld (Sample.bot_with "EUR/USD" Sample.through_zero) 1000
          [EvPrint (LogAnalysisError "EUR/USD" ZeroDivisionError)]).
Proof.
  split; [vm_compute; lia|].
  split; [vm_compute; reflexivity|].
  split; vm_compute; reflexivity.
Qed.

Lemma insufficient_history_witness :
  analyze_pair (ind := Sample.indicators) "EUR/USD"
    (Sample.world_with "EUR/USD" (repeat 10%float 14))
  = (Return None,
     mkWorld (Sample.bot_with "EUR/USD" (repeat 10%float 14)) 1000
       [EvPrint (LogInsufficient "EUR/USD" 14)]).
Proof.
  apply (insufficient_history (ind := Sample.indicators) "EUR/USD"
           (Sample.world_with "EUR/USD" (repeat 10%float 14))
           (repeat 10%float 14)).
  - reflexivity.
  - vm_compute. lia.
Defined.

(** Two histories with the readings 0 then 85.71: the last price change is
    600%% in one and below [MIN_PRICE_CHANGE] in the other, and both give
    PUT. *)
Lemma signal_from_readings_only_witness :
  fst (price_change_of Sample.big_move (Sample.world_with "A" []))
  = Return 600%float
  /\ (exists c : float,
        fst (price_change_of Sample.small_move (Sample.world_with "A" []))
        = Return c
        /\ (c <? MIN_PRICE_CHANGE)%float = true)
  /\ exists a1 a2 : analysis,
       fst (analyze_pair (ind := Sample.indicators) "EUR/USD"
              (Sample.world_with "EUR/USD" Sample.big_move))
       = Return (Some a1)
       /\ fst (analyze_pair (ind := Sample.indicators) "USD/JPY"
                 (Sample.world_with "USD/JPY" Sample.small_move))
          = Return (Some a2)
       /\ signal a1 = PUT /\ signal a2 = PUT.
Proof.
  split; [vm_compute; reflexivity|].
  split; [eexists; split; vm_compute; reflexivity|].
  destruct (signal_from_readings_only (ind := Sample.indicators)
              "EUR/USD" (Sample.world_with "EUR/USD" Sample.big_move)
              (repeat 10%float 14) 5%float 35%float
              (repeat nan 14 ++ [0%float])
              (Sample.rsi_window (drop 1 Sample.big_move))
              "USD/JPY" (Sample.world_with "USD/JPY" Sample.small_move)
              (repeat 10000%float 14) 9995%float 10025%float
              (repeat nan 14 ++ [0%float])
              (Sample.rsi_window (drop 1 Sample.small_move)))
    as (a1 & a2 & H1 & H2 & Heq & Hc).
  - reflexivity.
  - vm_compute. lia.
  - vm_compute. reflexivity.
  - reflexivity.
  - reflexivity.
  - vm_compute. lia.
  - vm_compute. reflexivity.
  - reflexivity.
  - vm_compute. reflexivity.
  - reflexivity.
  - exists a1, a2. split; [exact H1|]. split; [exact H2|].
    assert (Hput : signal a1 = PUT) by (rewrite Hc; vm_compute; reflexivity).
    split; [exact Hput|]. rewrite <- Heq. exact Hput.
Defined.

(** C8, the failing input. Two histories with the same oscillator series
    (readings 0 then 75): the one whose second most recent close is zero
    gives no result, because the price change cannot be computed; the other
    gives PUT. *)
Lemma zero_price_changes_outcome :
  ta_rsi (Indicators := Sample.indicators) Sample.through_zero RSI_PERIOD
  = ta_rsi (Indicators := Sample.indicators) Sample.above_zero RSI_PERIOD
  /\ fst (analyze_pair (ind := Sample.indicators) "EUR/USD"
            (Sample.world_with "EUR/USD" Sample.through_zero))
     = Return None
  /\ fst (analyze_pair (ind := Sample.indicators) "EUR/USD"
            (Sample.world_with "EUR/USD" Sample.above_zero))
     = Return (Some (mkAnalysis PUT 40 75 TIMEFRAME 1000)).
Proof.
  split; [vm_compute; reflexivity|].
  split; vm_compute; reflexivity.
Qed.


(** ** The rate limiter (lines 58-73) *)

Lemma Qltb_lt (x y : Q) : Qltb x y = true <-> (x < y)%Q.
Proof.
  unfold Qltb. rewrite negb_true_iff, <- not_true_iff_false, Qle_bool_iff.
  split; [apply Qnot_le_lt | apply Qlt_not_le].
Qed.

Lemma throttled_iff (w : world) :
  throttled w = true
  <-> (clock w - last_api_call (self w) < 60)%Q
      /\ RATE_LIMIT <= api_calls (self w).
Proof.
  unfold throttled. rewrite andb_true_iff, Qltb_lt, Z.leb_le. reflexivity.
Qed.

Lemma throttle_sleeps (w : world) :
  throttled w = true ->
  throttle w
  = (Return tt,
     let wait_time := (60 - (clock w - last_api_call (self w)))%Q in
     mkWorld (set_limiter (last_api_call (self w)) 0 (self w))
       (clock w + wait_time)%Q
       ((trace w ++ [EvPrint (LogRateLimit wait_time)])
          ++ [EvSleep wait_time])).
Proof.
  intros Ht. unfold throttled in Ht.
  unfold throttle, bind, time_time, get_self. rewrite Ht. reflexivity.
Qed.

Lemma throttle_passes (w : world) :
  throttled w = false -> throttle w = (Return tt, w).
Proof.
  intros Ht. unfold throttled in Ht.
  unfold throttle, bind, time_time, get_self. rewrite Ht. reflexivity.
Qed.

Lemma gets_app (l k : list event) : gets (l ++ k) = gets l ++ gets k.
Proof. apply omap_app. Qed.
Lemma sleeps_app (l k : list event) : sleeps (l ++ k) = sleeps l ++ sleeps k.
Proof. apply omap_app. Qed.
Lemma sends_app (l k : list event) : sends (l ++ k) = sends l ++ sends k.
Proof. apply omap_app. Qed.

(** What one call of [api_request] does to the world, whatever the reply. *)
Lemma api_request_effect (symbol : string) (n : nat) (r : http_reply)
    (w : world) :
  let w1 := snd (throttle w) in
  let w' := snd (api_request symbol n r w) in
  (exists res, fst (api_request symbol n r w) = Return res)
  /\ gets (trace w') = gets (trace w1) ++ [(clock w1, symbol)]
  /\ sleeps (trace w') = sleeps (trace w1)
  /\ sends (trace w') = sends (trace w1)
  /\ clock w' = (clock w1 + latency r)%Q
  /\ price_history (self w') = price_history (self w1)
  /\ last_prediction (self w') = last_prediction (self w1)
  /\ api_calls (self w')
     = (if responded r then api_calls (self w1) + 1 else api_calls (self w1))
  /\ last_api_call (self w')
     = (if responded r then (clock w1 + latency r)%Q
        else last_api_call (self w1)).
Proof.
  assert (Hthr : exists w1, throttle w = (Return tt, w1)).
  { destruct (throttled w) eqn:Ht.
    - rewrite (throttle_sleeps w Ht). eauto.
    - rewrite (throttle_passes w Ht). eauto. }
  destruct Hthr as [w1 Hw1]. 
  unfold api_request, try_except, bind. rewrite Hw1. cbn [snd].
  unfold request, responded, bind, time_time, emit, elapse, get_self, put_self,
    print, emit, ret, raise.
  destruct r as [lat [| |status [d|]]]; cbn [outcome latency self clock trace];
    try destruct (negb (status =? 200)); 
    try (destruct (code d) as [c|]; [destruct (negb (c =? 200))|]);
    cbn [fst snd self clock trace set_limiter api_calls last_api_call price_history last_prediction];
    rewrite ?gets_app, ?sleeps_app, ?sends_app; cbn [gets sleeps sends omap issued slept sent app];
    rewrite ?app_nil_r; repeat split; eauto.
Qed.

(** C2 (amended). Every call issues exactly one request, with or without a
    delay. When fewer than 60 seconds have passed since the last answered
    request and the counter is at the quota, the call first sleeps for
    [60 - (now - last_api_call)] seconds, so the request goes out exactly 60
    seconds after the last answered request, and the counter restarts from
    0. In every other case the request goes out at once and the counter is
    incremented: it is not reset because 60 seconds have passed. *)
Theorem api_request_throttling (symbol : string) (n : nat) (r : http_reply)
    (w : world) :
  let b := self w in
  let w' := snd (api_request symbol n r w) in
  let idle := (clock w - last_api_call b)%Q in
  ((idle < 60)%Q -> RATE_LIMIT <= api_calls b ->
   exists t : Q,
     gets (trace w') = gets (trace w) ++ [(t, symbol)]
     /\ (t == last_api_call b + 60)%Q
     /\ sleeps (trace w') = sleeps (trace w) ++ [(60 - idle)%Q]
     /\ api_calls (self w') = (if responded r then 1 else 0)
     /\ last_api_call (self w')
        = (if responded r then (t + latency r)%Q else last_api_call b))
  /\ (~ ((idle < 60)%Q /\ RATE_LIMIT <= api_calls b) ->
      gets (trace w') = gets (trace w) ++ [(clock w, symbol)]
      /\ sleeps (trace w') = sleeps (trace w)
      /\ api_calls (self w')
         = (if responded r then api_calls b + 1 else api_calls b)
      /\ last_api_call (self w')
         = (if responded r then (clock w + latency r)%Q
            else last_api_call b)).
Proof.
  intros b w' idle.
  destruct (api_request_effect symbol n r w)
    as (_ & Hg & Hs & _ & _ & _ & _ & Hc & Hl).
  fold w' in Hg, Hs, Hc, Hl. split.
  - intros Hidle Hquota.
    assert (Ht : throttled w = true) by (apply throttled_iff; split; assumption).
    rewrite (throttle_sleeps w Ht) in Hg, Hs, Hc, Hl.
    cbn [snd trace clock self set_limiter api_calls last_api_call] in Hg, Hs, Hc, Hl.
    rewrite !gets_app in Hg. rewrite !sleeps_app in Hs.
    cbn [gets sleeps omap issued slept app] in Hg, Hs.
    rewrite !app_nil_r in Hg. rewrite app_nil_r in Hs.
    eexists. split; [exact Hg|]. split; [unfold idle, b; ring|].
    split; [exact Hs|]. split; [exact Hc|exact Hl].
  - intros Hno.
    assert (Ht : throttled w = false).
    { destruct (throttled w) eqn:Ht; [|reflexivity].
      apply throttled_iff in Ht. contradiction. }
    rewrite (throttle_passes w Ht) in Hg, Hs, Hc, Hl.
    cbn [snd] in Hg, Hs, Hc, Hl. auto.
Qed.

Lemma api_request_throttling_witness :
  let w := mkWorld (mkBot true true ∅ 1000 6 ∅) 1005 [] in
  let w' := snd (api_request "EUR/USD:FOREX" 1 Sample.instant_reply w) in
  exists t : Q,
    gets (trace w') = [(t, "EUR/USD:FOREX")]
    /\ (t == 1060)%Q
    /\ sleeps (trace w') = [(60 - (1005 - 1000))%Q]
    /\ api_calls (self w') = 1.
Proof.
  destruct (api_request_throttling "EUR/USD:FOREX" 1 Sample.instant_reply
              (mkWorld (mkBot true true ∅ 1000 6 ∅) 1005 []))
    as [Hdelayed _].
  destruct Hdelayed as (t & Hg & Ht & Hs & Hc & _).
  - reflexivity.
  - unfold RATE_LIMIT. cbn. lia.
  - exists t. cbv zeta. rewrite Hg, Hs, Hc.
    split; [reflexivity|]. split; [rewrite Ht; reflexivity|].
    split; reflexivity.
Defined.

(** C2, counterexample. First: 100 seconds after the last call, with the
    counter at the quota, a call leaves the counter at 7, it is not reset.
    Second: seven answered requests from time 1000 on, ten seconds apart (the
    seventh five seconds after the sixth): the seventh goes out at 1110, 60
    seconds after the sixth, and not at 1060, 60 seconds after the first. *)
Lemma delay_is_from_last_call :
  (let w := mkWorld (mkBot true true ∅ 0 6 ∅) 100 [] in
   let w' := snd (api_request "EUR/USD:FOREX" 1 Sample.instant_reply w) in
   (60 < clock w - last_api_call (self w))%Q
   /\ api_calls (self w') = 7
   /\ sleeps (trace w') = [])
  /\ (let w := mkWorld (mkBot true true ∅ 0 0 ∅) 1000 [] in
      let w' := snd (polls "EUR/USD:FOREX"
                       ((0%Q, Sample.instant_reply)
                          :: repeat (10%Q, Sample.instant_reply) 5
                          ++ [(5%Q, Sample.instant_reply)]) w) in
      (Qred ∘ fst) <$> gets (trace w')
      = [1000; 1010; 1020; 1030; 1040; 1050; 1110]%Q
      /\ Qred <$> sleeps (trace w') = [55%Q]).
Proof.
  split.
  - split; [reflexivity|]. split; vm_compute; reflexivity.
  - split; vm_compute; reflexivity.
Qed.

(** ** The price history (lines 117-126) *)

(** Converting the closes of a batch never touches the world. *)
Lemma closes_of_pure (bs : list bar) (w : world) :
  exists r : result (list float),
    closes_of bs w = (r, w)
    /\ forall cs, r = Return cs -> length cs = length bs.
Proof.
  induction bs as [|b bs IH]; simpl.
  - eexists. split; [reflexivity|]. intros cs [= <-]. reflexivity.
  - destruct IH as (r & Hr & Hlen). unfold bind, convert, ret, raise.
    destruct (bar_close b) as [| |c].
    + eexists. split; [reflexivity|]. intros cs [=].
    + eexists. split; [reflexivity|]. intros cs [=].
    + rewrite Hr. destruct r as [cs'|e].
      * eexists. split; [reflexivity|]. intros cs [= <-].
        simpl. f_equal. apply Hlen. reflexivity.
      * eexists. split; [reflexivity|]. intros cs [=].
Qed.

Lemma closes_of_present (bs : list bar) (cs : list float) (w : world) :
  bar_close <$> bs = Present <$> cs -> closes_of bs w = (Return cs, w).
Proof.
  revert cs. induction bs as [|b bs IH]; intros [|c cs] Heq;
    try discriminate; [reflexivity|].
  simpl in Heq. injection Heq as Hb Hrest.
  simpl. unfold bind, convert. rewrite Hb. unfold ret.
  rewrite (IH cs Hrest). reflexivity.
Qed.

Lemma seed_present (pair : string) (bars : list bar) (cs h : list float)
    (w : world) :
  price_history (self w) !! pair = Some h ->
  bar_close <$> bars = Present <$> cs ->
  seed pair bars w
  = (Return tt,
     mkWorld (set_history pair (reverse cs) (self w)) (clock w)
       (trace w ++ [EvPrint (LogSeeded pair (length (reverse cs)))])).
Proof.
  intros Hh Hcs. unfold seed, bind.
  rewrite (closes_of_present (reverse bars) (reverse cs))
    by (rewrite !fmap_reverse, Hcs; reflexivity).
  unfold get_self, subscript. rewrite Hh. reflexivity.
Qed.

Lemma append_present (pair : string) (p : float) (h : list float) (w : world) :
  price_history (self w) !! pair = Some h ->
  append pair p w
  = (Return tt,
     mkWorld (set_history pair (rolling_update h p) (self w)) (clock w)
       (trace w)).
Proof.
  intros Hh. unfold append, bind, get_self, subscript. rewrite Hh. reflexivity.
Qed.

Lemma append_absent (pair : string) (p : float) (w : world) :
  price_history (self w) !! pair = None ->
  append pair p w = (Raise KeyError, w).
Proof.
  intros Hh. unfold append, bind, get_self, subscript. rewrite Hh. reflexivity.
Qed.

Lemma rolling_update_drop (h : list float) (p : float) :
  (length h <= HISTORY_LENGTH)%nat ->
  rolling_update h p = drop (length h + 1 - HISTORY_LENGTH) (h ++ [p]).
Proof.
  intros Hlen. unfold rolling_update. cbv zeta.
  rewrite length_app. cbn [length].
  destruct (Nat.ltb_spec HISTORY_LENGTH (length h + 1)) as [Hlt|Hge].
  - replace (length h + 1 - HISTORY_LENGTH)%nat with 1%nat by lia. reflexivity.
  - replace (length h + 1 - HISTORY_LENGTH)%nat with 0%nat by lia. reflexivity.
Qed.

Lemma rolling_update_length (h : list float) (p : float) :
  (length h <= HISTORY_LENGTH)%nat ->
  (length (rolling_update h p) <= HISTORY_LENGTH)%nat.
Proof.
  intros Hlen. rewrite rolling_update_drop by exact Hlen.
  rewrite length_drop, length_app. cbn [length]. lia.
Qed.

Lemma bounded_set_history (pair : string) (closes : list float) (b : bot) :
  bounded b ->
  (length closes <= HISTORY_LENGTH)%nat ->
  bounded (set_history pair closes b).
Proof.
  intros Hb Hlen k h. unfold set_history. cbn [price_history].
  rewrite lookup_insert_Some.
  intros [[_ <-]|[_ Hk]]; [exact Hlen|exact (Hb k h Hk)].
Qed.

Lemma mutate_bounded (m : mutation) (w : world) :
  bounded (self w) -> small_seed m -> bounded (self (snd (mutate m w))).
Proof.
  intros Hb Hsmall. destruct m as [pair bars|pair p]; cbn [mutate small_seed] in *.
  - unfold seed, bind.
    destruct (closes_of_pure (reverse bars) w) as (r & Hr & Hlen).
    rewrite Hr. destruct r as [cs|e]; [|exact Hb].
    unfold get_self, subscript.
    destruct (price_history (self w) !! pair) eqn:Hh; [|exact Hb].
    cbn. apply bounded_set_history; [exact Hb|].
    rewrite (Hlen cs eq_refl), length_reverse. exact Hsmall.
  - destruct (price_history (self w) !! pair) as [h|] eqn:Hh.
    + rewrite (append_present pair p h w Hh). cbn [snd self].
      apply bounded_set_history; [exact Hb|].
      apply rolling_update_length. exact (Hb pair h Hh).
    + rewrite (append_absent pair p w Hh). exact Hb.
Qed.

Lemma after_bounded (ms : list mutation) (w : world) :
  bounded (self w) -> Forall small_seed ms -> bounded (self (after ms w)).
Proof.
  revert w. induction ms as [|m ms IH]; intros w Hb Hall; [exact Hb|].
  inversion Hall as [|? ? Hm Hms]; subst.
  cbn [after fold_left]. apply IH; [|exact Hms].
  apply mutate_bounded; assumption.
Qed.

Lemma after_appends (pair : string) (ps : list float) (h : list float)
    (w : world) :
  price_history (self w) !! pair = Some h ->
  (length h <= HISTORY_LENGTH)%nat ->
  price_history (self (after (Append pair <$> ps) w)) !! pair
  = Some (drop (length h + length ps - HISTORY_LENGTH) (h ++ ps)).
Proof.
  revert h w. induction ps as [|p ps IH]; intros h w Hh Hlen.
  - cbn [fmap list_fmap after fold_left length]. rewrite app_nil_r, Hh.
    replace (length h + 0 - HISTORY_LENGTH)%nat with 0%nat by lia. reflexivity.
  - cbn [fmap list_fmap after fold_left mutate].
    rewrite (append_present pair p h w Hh). cbn [snd].
    pose proof (rolling_update_length h p Hlen) as Hlen'.
    specialize (IH (rolling_update h p)
                  (mkWorld (set_history pair (rolling_update h p) (self w))
                     (clock w) (trace w))).
    unfold after in IH. cbn [fmap] in IH. rewrite IH; [|apply lookup_insert_eq|exact Hlen'].
    f_equal. rewrite rolling_update_drop by exact Hlen.
    cbn [length].
    destruct (Nat.le_gt_cases (length h + 1) HISTORY_LENGTH) as [Hle|Hgt].
    + replace (length h + 1 - HISTORY_LENGTH)%nat with 0%nat by lia.
      rewrite drop_0, length_app. cbn [length].
      rewrite <- app_assoc. cbn [app]. f_equal. lia.
    + assert (length h = HISTORY_LENGTH) as Hfull by lia.
      replace (length h + 1 - HISTORY_LENGTH)%nat with 1%nat by lia.
      rewrite length_drop, length_app. cbn [length].
      rewrite <- drop_app_le by (rewrite length_app; cbn [length]; lia).
      rewrite drop_drop, <- app_assoc. cbn [app]. f_equal. lia.
Qed.

(** C3. Histories that are within the capacity stay within it under every
    sequence of mutations whose seeds are provider batches of at most
    [HISTORY_LENGTH] bars (the size the seeding request asks for), also when
    a mutation raises. A seed with the
    newest-first closes [cs] followed by the appends [ps] leaves the last
    [HISTORY_LENGTH] elements of [reverse cs ++ ps], oldest first; appends
    alone leave the last [HISTORY_LENGTH] elements of [h ++ ps]; on a full
    history, [k] appends drop exactly its [k] oldest elements and keep the
    rest in order. *)
Theorem history_within_capacity :
  (forall (ms : list mutation) (w : world),
      bounded (self w) -> Forall small_seed ms -> bounded (self (after ms w)))
  /\ (forall (pair : string) (w : world) (h : list float) (bars : list bar)
             (cs ps : list float),
         price_history (self w) !! pair = Some h ->
         bar_close <$> bars = Present <$> cs ->
         (length bars <= HISTORY_LENGTH)%nat ->
         price_history
           (self (after (Seed pair bars :: (Append pair <$> ps)) w)) !! pair
         = Some (drop (length bars + length ps - HISTORY_LENGTH)
                   (reverse cs ++ ps)))
  /\ (forall (pair : string) (w : world) (h ps : list float),
         price_history (self w) !! pair = Some h ->
         (length h <= HISTORY_LENGTH)%nat ->
         price_history (self (after (Append pair <$> ps) w)) !! pair
         = Some (drop (length h + length ps - HISTORY_LENGTH) (h ++ ps)))
  /\ (forall (pair : string) (w : world) (h ps : list float),
         price_history (self w) !! pair = Some h ->
         length h = HISTORY_LENGTH ->
         (length ps <= HISTORY_LENGTH)%nat ->
         price_history (self (after (Append pair <$> ps) w)) !! pair
         = Some (drop (length ps) h ++ ps)).
Proof.
  split; [exact after_bounded|]. split; [|split].
  - intros pair w h bars cs ps Hh Hcs Hlen.
    assert (Hl : length cs = length bars).
    { rewrite <- (length_fmap Present cs), <- Hcs, length_fmap. reflexivity. }
    change (after (Seed pair bars :: (Append pair <$> ps)) w)
      with (after (Append pair <$> ps) (snd (seed pair bars w))).
    rewrite (seed_present pair bars cs h w Hh Hcs). cbn [snd].
    rewrite (after_appends pair ps (reverse cs)).
    + rewrite length_reverse, Hl. reflexivity.
    + apply lookup_insert_eq.
    + rewrite length_reverse, Hl. exact Hlen.
  - intros pair w h ps Hh Hlen. exact (after_appends pair ps h w Hh Hlen).
  - intros pair w h ps Hh Hfull Hps.
    rewrite (after_appends pair ps h w Hh) by lia.
    f_equal. rewrite Hfull.
    replace (HISTORY_LENGTH + length ps - HISTORY_LENGTH)%nat
      with (length ps) by lia.
    apply drop_app_le. lia.
Qed.

Lemma init_bot_bounded (pairs : list string) (client : bool) :
  bounded (init_bot pairs client).
Proof.
  intros k h Hk. unfold init_bot in Hk. cbn [price_history] in Hk.
  apply elem_of_list_to_map_2 in Hk.
  apply list_elem_of_fmap in Hk. destruct Hk as (p & [= -> ->] & _).
  cbn. lia.
Qed.

Lemma history_within_capacity_witness :
  price_history
    (self (after (Append "EUR/USD" <$> [7; 8]%float)
             (Sample.world_with "EUR/USD" (repeat 1%float 100))))
    !! "EUR/USD"
  = Some (repeat 1%float 98 ++ [7; 8]%float).
Proof.
  destruct history_within_capacity as (_ & _ & _ & Hfull).
  rewrite (Hfull "EUR/USD" _ (repeat 1%float 100) [7; 8]%float);
    [reflexivity|reflexivity|reflexivity|vm_compute; lia].
Defined.

(** ** The fetcher (lines 93-129) *)

Lemma throttle_frame (w : world) :
  let w1 := snd (throttle w) in
  price_history (self w1) = price_history (self w)
  /\ last_prediction (self w1) = last_prediction (self w)
  /\ sends (trace w1) = sends (trace w).
Proof.
  destruct (throttled w) eqn:Ht.
  - rewrite (throttle_sleeps w Ht). cbn [snd self trace set_limiter
      price_history last_prediction].
    rewrite !sends_app. cbn. rewrite !app_nil_r. auto.
  - rewrite (throttle_passes w Ht). auto.
Qed.

(** A request changes neither the histories nor the predictions, and sends
    no message. *)
Lemma api_request_frame (symbol : string) (n : nat) (r : http_reply)
    (w : world) :
  let w' := snd (api_request symbol n r w) in
  price_history (self w') = price_history (self w)
  /\ last_prediction (self w') = last_prediction (self w)
  /\ sends (trace w') = sends (trace w).
Proof.
  destruct (api_request_effect symbol n r w)
    as (_ & _ & _ & Hs & _ & Hp & Hl & _).
  destruct (throttle_frame w) as (Hp' & Hl' & Hs').
  cbv zeta. rewrite Hs, Hp, Hl. auto.
Qed.

(** What [api_request] returns: the decoded body of a response of status 200
    whose ["code"], if any, is 200, and [None] in every other case; it never
    raises. *)
Lemma api_request_result (symbol : string) (n : nat) (r : http_reply)
    (w : world) :
  fst (api_request symbol n r w)
  = Return (match outcome r with
            | Response status (Some d) =>
                if (status =? 200) && accepted d then Some d else None
            | _ => None
            end).
Proof.
  assert (Hthr : exists w1, throttle w = (Return tt, w1)).
  { destruct (throttled w) eqn:Ht.
    - rewrite (throttle_sleeps w Ht). eauto.
    - rewrite (throttle_passes w Ht). eauto. }
  destruct Hthr as [w1 Hw1].
  unfold api_request, try_except, bind. rewrite Hw1.
  unfold request, accepted, bind, time_time, emit, elapse, get_self, put_self,
    print, emit, ret, raise.
  destruct r as [lat [| |status [d|]]]; cbn [outcome latency];
    try reflexivity;
    destruct (status =? 200); cbn [negb andb]; try reflexivity;
    destruct (code d) as [c|]; try reflexivity;
    destruct (c =? 200); reflexivity.
Qed.

(** The fetch, split at the request: a reply that delivers no bars gives
    [None]; the bars of any other reply are ingested. *)
Lemma get_market_data_fetched (pair : string) (history : bool)
    (r : http_reply) (w : world) :
  let w1 := mkWorld (self w) (clock w)
              (trace w ++ [EvPrint (LogFetching pair history)]) in
  let w2 := snd (api_request (symbol_of pair)
                   (if history then HISTORY_LENGTH else 1%nat) r w1) in
  get_market_data pair history r w
  = match fetched r with
    | None =>
        (Return None,
         mkWorld (self w2) (clock w2) (trace w2 ++ [EvPrint (LogNoData pair)]))
    | Some bars => ingest pair history bars w2
    end.
Proof.
  intros w1 w2. unfold get_market_data. cbv zeta.
  unfold bind at 1. unfold print at 1, emit at 1. fold w1.
  unfold bind at 1.
  pose proof (api_request_result (symbol_of pair)
                (if history then HISTORY_LENGTH else 1%nat) r w1) as Hres.
  fold w2.
  destruct (api_request (symbol_of pair)
              (if history then HISTORY_LENGTH else 1%nat) r w1)
    as [res w2'] eqn:E.
  subst w2. cbn [fst snd] in *. subst res.
  unfold fetched.
  destruct (outcome r) as [| |status [d|]]; try reflexivity.
  destruct ((status =? 200) && accepted d); [|reflexivity].
  destruct (values d); reflexivity.
Qed.

(** When [ingest] raises it has changed nothing. *)
Lemma ingest_raises (pair : string) (history : bool) (bars : list bar)
    (w w' : world) (e : exn) :
  ingest pair history bars w = (Raise e, w') -> w' = w.
Proof.
  unfold ingest, bind, convert, ret, raise.
  destruct bars as [|b0 rest]; [intros [= _ <-]; reflexivity|].
  destruct (bar_close b0) as [| |c0]; try (intros [= _ <-]; reflexivity).
  destruct (bar_datetime b0) as [| |ts]; try (intros [= _ <-]; reflexivity).
  destruct history.
  - unfold seed, bind.
    destruct (closes_of_pure (reverse (b0 :: rest)) w) as (rc & Hrc & _).
    rewrite Hrc. destruct rc as [cs|e']; [|intros [= _ <-]; reflexivity].
    unfold get_self, subscript.
    destruct (price_history (self w) !! pair);
      [discriminate|intros [= _ <-]; reflexivity].
  - destruct (price_history (self w) !! pair) as [h|] eqn:Hh.
    + rewrite (append_present pair c0 h w Hh). discriminate.
    + rewrite (append_absent pair c0 w Hh). intros [= _ <-]; reflexivity.
Qed.

(** When [ingest] returns, it returns the newest bar, the pair has a
    history, and nothing was sent. *)
Lemma ingest_returns (pair : string) (history : bool) (bars : list bar)
    (w w' : world) (res : option market_data) :
  ingest pair history bars w = (Return res, w') ->
  (exists data, res = Some data)
  /\ (exists h, price_history (self w') !! pair = Some h)
  /\ last_prediction (self w') = last_prediction (self w)
  /\ sends (trace w') = sends (trace w).
Proof.
  unfold ingest, bind, convert, ret, raise.
  destruct bars as [|b0 rest]; [discriminate|].
  destruct (bar_close b0) as [| |c0]; try discriminate.
  destruct (bar_datetime b0) as [| |ts]; try discriminate.
  destruct history.
  - unfold seed, bind.
    destruct (closes_of_pure (reverse (b0 :: rest)) w) as (rc & Hrc & _).
    rewrite Hrc. destruct rc as [cs|e']; [|discriminate].
    unfold get_self, subscript.
    destruct (price_history (self w) !! pair); [|discriminate].
    cbn. intros [= <- <-]. cbn.
    rewrite lookup_insert_eq, !sends_app. cbn. rewrite !app_nil_r.
      repeat split; eauto.
  - destruct (price_history (self w) !! pair) as [h|] eqn:Hh.
    + rewrite (append_present pair c0 h w Hh). cbn. intros [= <- <-]. cbn.
      rewrite lookup_insert_eq, !sends_app. cbn. rewrite !app_nil_r.
      repeat split; eauto.
    + rewrite (append_absent pair c0 w Hh). discriminate.
Qed.

Lemma ingest_latest (pair : string) (b0 : bar) (rest : list bar)
    (c0 : float) (ts : string) (h : list float) (w : world) :
  bar_close b0 = Present c0 ->
  bar_datetime b0 = Present ts ->
  price_history (self w) !! pair = Some h ->
  ingest pair false (b0 :: rest) w
  = (Return (Some (mkData c0 pair ts)),
     mkWorld (set_history pair (rolling_update h c0) (self w)) (clock w)
       (trace w ++ [EvPrint (LogPrice pair ts c0)])).
Proof.
  intros Hc Hd Hh. unfold ingest, bind, convert, ret. rewrite Hc, Hd.
  rewrite (append_present pair c0 h w Hh). reflexivity.
Qed.

Lemma ingest_seed (pair : string) (b0 : bar) (rest : list bar)
    (c0 : float) (cs : list float) (ts : string) (h : list float)
    (w : world) :
  bar_close <$> (b0 :: rest) = Present <$> (c0 :: cs) ->
  bar_datetime b0 = Present ts ->
  price_history (self w) !! pair = Some h ->
  ingest pair true (b0 :: rest) w
  = (Return (Some (mkData c0 pair ts)),
     mkWorld (set_history pair (reverse (c0 :: cs)) (self w)) (clock w)
       ((trace w ++ [EvPrint (LogSeeded pair (length (reverse (c0 :: cs))))])
          ++ [EvPrint (LogPrice pair ts c0)])).
Proof.
  intros Hcs Hd Hh. unfold ingest, bind, convert, ret.
  assert (Hc : bar_close b0 = Present c0) by (injection Hcs; auto).
  rewrite Hc, Hd.
  rewrite (seed_present pair (b0 :: rest) (c0 :: cs) h w Hh Hcs). reflexivity.
Qed.

(** The fetch never sends a message nor touches the predictions; unless it
    returns a bar it leaves every history as it was; when it returns one the
    pair has a history. *)
Lemma get_market_data_effect (pair : string) (history : bool)
    (r : http_reply) (w : world) :
  let res := fst (get_market_data pair history r w) in
  let w' := snd (get_market_data pair history r w) in
  last_prediction (self w') = last_prediction (self w)
  /\ sends (trace w') = sends (trace w)
  /\ match res with
     | Return (Some _) => exists h, price_history (self w') !! pair = Some h
     | _ => price_history (self w') = price_history (self w)
     end.
Proof.
  cbv zeta. rewrite get_market_data_fetched.
  set (w1 := mkWorld (self w) (clock w)
               (trace w ++ [EvPrint (LogFetching pair history)])).
  destruct (api_request_frame (symbol_of pair)
              (if history then HISTORY_LENGTH else 1%nat) r w1)
    as (Hp & Hl & Hs).
  set (w2 := snd (api_request (symbol_of pair)
                    (if history then HISTORY_LENGTH else 1%nat) r w1)) in *.
  assert (Hs1 : sends (trace w1) = sends (trace w)).
  { unfold w1. cbn [trace]. rewrite sends_app. cbn. apply app_nil_r. }
  cbn [self] in Hp, Hl.
  destruct (fetched r) as [bars|].
  - destruct (ingest pair history bars w2) as [[res|e] w3] eqn:E.
    + destruct (ingest_returns _ _ _ _ _ _ E) as ([data ->] & Hh & Hl3 & Hs3).
      cbn [fst snd]. rewrite Hl3, Hs3, Hl, Hs, Hs1. auto.
    + apply ingest_raises in E. subst w3. cbn [fst snd].
      rewrite Hl, Hs, Hs1, Hp. auto.
  - cbn [fst snd self trace]. rewrite sends_app. cbn.
    rewrite app_nil_r, Hl, Hs, Hs1, Hp. auto.
Qed.

(** The bars a reply delivers are the ["values"] of what [api_request]
    returns for it. *)
Lemma fetched_api_request (symbol : string) (n : nat) (r : http_reply)
    (w : world) (data : option payload) :
  fst (api_request symbol n r w) = Return data ->
  fetched r = data ≫= values.
Proof.
  rewrite api_request_result. intros [= <-]. unfold fetched.
  destruct (outcome r) as [| |status [d|]]; try reflexivity.
  destruct ((status =? 200) && accepted d); reflexivity.
Qed.

(** C7. A seeding request answered with a batch of 100 bars, newest first,
    with closes [c0 :: cs]: the fetch returns the newest bar and leaves, as
    the history of the pair, the closes in reversed order (oldest first:
    position [i] holds the close of bar [99 - i]), of length 100. *)
Theorem seeding_stores_reversed_batch (pair : string) (r : http_reply)
    (w : world) (b0 : bar) (rest : list bar) (c0 : float) (cs : list float)
    (ts : string) (h : list float) :
  fetched r = Some (b0 :: rest) ->
  length (b0 :: rest) = 100%nat ->
  bar_close <$> (b0 :: rest) = Present <$> (c0 :: cs) ->
  bar_datetime b0 = Present ts ->
  price_history (self w) !! pair = Some h ->
  let w' := snd (get_market_data pair true r w) in
  fst (get_market_data pair true r w) = Return (Some (mkData c0 pair ts))
  /\ price_history (self w') !! pair = Some (reverse (c0 :: cs))
  /\ length (reverse (c0 :: cs)) = 100%nat
  /\ forall i : nat,
       (i < 100)%nat -> reverse (c0 :: cs) !! i = (c0 :: cs) !! (99 - i)%nat.
Proof.
  intros Hf Hlen Hcs Hd Hh.
  assert (Hl : length (c0 :: cs) = 100%nat).
  { rewrite <- (length_fmap Present (c0 :: cs)), <- Hcs, length_fmap.
    exact Hlen. }
  cbv zeta. rewrite get_market_data_fetched, Hf.
  set (w1 := mkWorld (self w) (clock w)
               (trace w ++ [EvPrint (LogFetching pair true)])).
  destruct (api_request_frame (symbol_of pair) HISTORY_LENGTH r w1)
    as (Hp & _).
  rewrite (ingest_seed pair b0 rest c0 cs ts h _ Hcs Hd)
    by (rewrite Hp; exact Hh).
  cbn [fst snd self set_history price_history].
  split; [reflexivity|]. split; [apply lookup_insert_eq|].
  split; [rewrite length_reverse; exact Hl|].
  intros i Hi. rewrite reverse_lookup by lia. rewrite Hl.
  f_equal.
Qed.

Lemma seeding_stores_reversed_batch_witness :
  let bars := Sample.good_bar 2 :: repeat (Sample.good_bar 1) 99 in
  let w' := snd (get_market_data "EUR/USD" true (Sample.ok_reply bars)
                   (Sample.world_with "EUR/USD" [])) in
  price_history (self w') !! "EUR/USD"
  = Some (repeat 1%float 99 ++ [2%float]).
Proof.
  destruct (seeding_stores_reversed_batch "EUR/USD"
              (Sample.ok_reply
                 (Sample.good_bar 2 :: repeat (Sample.good_bar 1) 99))
              (Sample.world_with "EUR/USD" [])
              (Sample.good_bar 2) (repeat (Sample.good_bar 1) 99)
              2%float (repeat 1%float 99) "2024-01-01 00:00:00" [])
    as (_ & Hhist & _).
  - reflexivity.
  - reflexivity.
  - vm_compute. reflexivity.
  - reflexivity.
  - reflexivity.
  - cbv zeta. rewrite Hhist. vm_compute. reflexivity.
Defined.

(** A fetch whose reply delivers no bars returns [None]. *)
Lemma fetch_without_bars (pair : string) (history : bool) (r : http_reply)
    (w : world) :
  fetched r = None ->
  fst (get_market_data pair history r w) = Return None.
Proof. intros Hf. rewrite get_market_data_fetched, Hf. reflexivity. Qed.

(** C4, the failing inputs. A response of status 200 whose newest bar has
    no ["close"] member, a batch with such a bar further down, and an empty
    ["values"] list: the fetch raises ([KeyError], [KeyError], [IndexError])
    instead of returning [None]; during seeding the exception leaves
    [start]. *)
Lemma missing_close_escapes_fetch :
  fst (get_market_data "EUR/USD" false (Sample.ok_reply [Sample.no_close])
         (Sample.world_with "EUR/USD" []))
  = Raise KeyError
  /\ fst (get_market_data "EUR/USD" true
            (Sample.ok_reply [Sample.good_bar 1; Sample.no_close])
            (Sample.world_with "EUR/USD" []))
     = Raise KeyError
  /\ fst (get_market_data "EUR/USD" false (Sample.ok_reply [])
            (Sample.world_with "EUR/USD" []))
     = Raise IndexError
  /\ fst (start (ind := Sample.indicators) ["EUR/USD"] (Some "1") true
            (fun _ => Sample.ok_reply [Sample.no_close]) []
            (Sample.world_with "EUR/USD" []))
     = Raise KeyError.
Proof. repeat split; vm_compute; reflexivity. Qed.

(** The fetch leaves the Telegram client of the bot as it is. *)
Lemma api_request_client (symbol : string) (n : nat) (r : http_reply)
    (w : world) :
  telegram_bot (self (snd (api_request symbol n r w))) = telegram_bot (self w).
Proof.
  assert (Hthr : exists w1, throttle w = (Return tt, w1)
                            /\ telegram_bot (self w1) = telegram_bot (self w)).
  { destruct (throttled w) eqn:Ht.
    - rewrite (throttle_sleeps w Ht). eexists. split; reflexivity.
    - rewrite (throttle_passes w Ht). eauto. }
  destruct Hthr as (w1 & Hw1 & Hr1).
  unfold api_request, try_except, bind. rewrite Hw1. rewrite <- Hr1.
  unfold request, bind, time_time, emit, elapse, get_self, put_self,
    print, emit, ret, raise.
  destruct r as [lat [| |status [d|]]]; cbn [outcome latency self clock trace];
    try destruct (negb (status =? 200));
    try (destruct (code d) as [c|]; [destruct (negb (c =? 200))|]);
    reflexivity.
Qed.

Lemma ingest_client (pair : string) (history : bool) (bars : list bar)
    (w : world) :
  telegram_bot (self (snd (ingest pair history bars w))) = telegram_bot (self w).
Proof.
  destruct (ingest pair history bars w) as [[res|e] w'] eqn:E.
  - revert E. unfold ingest, bind, convert, ret, raise.
    destruct bars as [|b0 rest]; [discriminate|].
    destruct (bar_close b0) as [| |c0]; try discriminate.
    destruct (bar_datetime b0) as [| |ts]; try discriminate.
    destruct history.
    + unfold seed, bind.
      destruct (closes_of_pure (reverse (b0 :: rest)) w) as (rc & Hrc & _).
      rewrite Hrc. destruct rc as [cs|e']; [|discriminate].
      unfold get_self, subscript.
      destruct (price_history (self w) !! pair); [|discriminate].
      cbn. intros [= _ <-]. reflexivity.
    + destruct (price_history (self w) !! pair) as [h|] eqn:Hh.
      * rewrite (append_present pair c0 h w Hh). cbn. intros [= _ <-].
        reflexivity.
      * rewrite (append_absent pair c0 w Hh). discriminate.
  - apply ingest_raises in E. subst w'. reflexivity.
Qed.

Lemma get_market_data_client (pair : string) (history : bool)
    (r : http_reply) (w : world) :
  telegram_bot (self (snd (get_market_data pair history r w)))
  = telegram_bot (self w).
Proof.
  rewrite get_market_data_fetched.
  pose proof (api_request_client (symbol_of pair)
                (if history then HISTORY_LENGTH else 1%nat) r
                (mkWorld (self w) (clock w)
                   (trace w ++ [EvPrint (LogFetching pair history)]))) as Hc.
  cbn [self] in Hc.
  destruct (fetched r) as [bars|].
  - rewrite ingest_client. exact Hc.
  - exact Hc.
Qed.

(** ** One instrument in one cycle (lines 182-202) *)

Lemma from_end_pure {A} (l : list A) (k : nat) :
  exists r : result A, forall w, from_end l k w = (r, w).
Proof.
  unfold from_end. destruct (reverse l !! (k - 1)%nat); eexists; reflexivity.
Qed.

Lemma price_change_of_pure (l : list float) :
  exists r : result float, forall w, price_change_of l w = (r, w).
Proof.
  unfold price_change_of. destruct (1 <? length l)%nat; [|eexists; reflexivity].
  destruct (from_end_pure l 1) as [[x|e] H1];
    destruct (from_end_pure l 2) as [[y|e'] H2]; unfold bind;
    try (eexists; intros w; rewrite H1; reflexivity);
    try (eexists; intros w; rewrite H1, H2; reflexivity).
  destruct (y =? 0)%float eqn:E;
    eexists; intros w; rewrite H1, H2; unfold float_div; rewrite E;
    reflexivity.
Qed.

Section SchedulerFacts.
Context `{ind : Indicators}.

Lemma readings_pure (s : list float) :
  exists r : result (float * float), forall w, readings s w = (r, w).
Proof.
  unfold readings, bind.
  destruct (from_end_pure s 1) as [[x|e] H1];
    [|eexists; intros w; rewrite H1; reflexivity].
  destruct (1 <? length s)%nat;
    [|eexists; intros w; rewrite H1; reflexivity].
  destruct (from_end_pure s 2) as [[y|e] H2];
    eexists; intros w; rewrite H1, H2; reflexivity.
Qed.

(** The analysis only reads the bot and only prints. *)
Lemma analyze_body_frame (pair : string) (h : list float) (w : world) :
  let w' := snd (analyze_body pair h w) in
  self w' = self w /\ sends (trace w') = sends (trace w).
Proof.
  unfold analyze_body.
  destruct (ta_rsi h RSI_PERIOD) as [| |s]; try (split; reflexivity).
  destruct (length s =? 0)%nat; [split; reflexivity|].
  unfold bind.
  destruct (readings_pure s) as [[rs|e] Hr]; rewrite Hr;
    [|split; reflexivity].
  destruct (from_end_pure h 1) as [[x|e] H1]; rewrite H1;
    [|split; reflexivity].
  destruct (price_change_of_pure h) as [[c|e] Hc]; rewrite Hc;
    [|split; reflexivity].
  cbn. rewrite sends_app. cbn. rewrite app_nil_r. split; reflexivity.
Qed.

Lemma analyze_pair_frame (pair : string) (w : world) :
  let w' := snd (analyze_pair pair w) in
  self w' = self w /\ sends (trace w') = sends (trace w).
Proof.
  unfold analyze_pair, bind, get_self, subscript.
  destruct (price_history (self w) !! pair) as [h|]; [|split; reflexivity].
  unfold ret.
  destruct (length h <? RSI_PERIOD + 1)%nat.
  - cbn. rewrite sends_app. cbn. rewrite app_nil_r. split; reflexivity.
  - unfold try_except.
    pose proof (analyze_body_frame pair h w) as Hb.
    destruct (analyze_body pair h w) as [[res|e] w1]; cbn [snd] in *;
      [exact Hb|].
    destruct Hb as [Hs Ht]. cbn. rewrite sends_app. cbn.
    rewrite app_nil_r. auto.
Qed.

(** With a history for the pair the analysis never raises. *)
Lemma analyze_pair_returns (pair : string) (w : world) (h : list float) :
  price_history (self w) !! pair = Some h ->
  exists res, fst (analyze_pair pair w) = Return res.
Proof.
  intros Hh. unfold analyze_pair, bind, get_self, subscript. rewrite Hh.
  unfold ret. destruct (length h <? RSI_PERIOD + 1)%nat; [eauto|].
  unfold try_except.
  destruct (analyze_body pair h w) as [[res|e] w1]; eauto.
Qed.

Lemma rsi_info_frame (a : analysis) (pair : string) (w : world) :
  exists w', rsi_info a pair w = (Return tt, w')
             /\ self w' = self w
             /\ sends (trace w') = sends (trace w).
Proof.
  unfold rsi_info, try_except, bind, get_self, subscript.
  destruct (price_history (self w) !! pair) as [h|].
  - unfold ret. destruct (ta_rsi h RSI_PERIOD) as [| |s].
    + eexists. split; [reflexivity|]. cbn. rewrite sends_app. cbn.
      rewrite app_nil_r. auto.
    + eexists. split; [reflexivity|]. cbn. rewrite sends_app. cbn.
      rewrite app_nil_r. auto.
    + destruct (1 <? length s)%nat.
      * destruct (from_end_pure s 2) as [[y|e] H2]; rewrite H2;
          eexists; (split; [reflexivity|]); cbn; rewrite sends_app; cbn;
          rewrite app_nil_r; auto.
      * eexists. split; [reflexivity|]. cbn. rewrite sends_app. cbn.
        rewrite app_nil_r. auto.
  - eexists. split; [reflexivity|]. cbn. rewrite sends_app. cbn.
    rewrite app_nil_r. auto.
Qed.

(** The notification never raises. With a Telegram client it hands exactly
    one message to Telegram, delivered or not; without one it hands over
    nothing. *)
Lemma notify_sends (a : analysis) (pair : string) (d : bool) (w : world) :
  exists w', notify a pair d w = (Return tt, w')
             /\ sends (trace w')
                = sends (trace w)
                    ++ (if telegram_bot (self w)
                        then [(pair, format_message a pair)] else [])
             /\ price_history (self w') = price_history (self w)
             /\ telegram_bot (self w') = telegram_bot (self w).
Proof.
  unfold notify, send_signal, try_except, bind, emit, print, emit, get_self,
    put_self, ret, raise.
  destruct (telegram_bot (self w)) eqn:Hb, d, (signal a); cbn;
    eexists; (split; [reflexivity|]); cbn;
    rewrite !sends_app; cbn; rewrite ?app_nil_r; auto.
Qed.

Lemma process_pair_fetch_raises (pair : string) (i : pair_input)
    (w w1 : world) (e : exn) :
  get_market_data pair false (reply i) w = (Raise e, w1) ->
  process_pair pair i w = (Raise e, w1).
Proof. intros Hg. unfold process_pair, bind. rewrite Hg. reflexivity. Qed.

Lemma process_pair_no_data (pair : string) (i : pair_input) (w w1 : world) :
  get_market_data pair false (reply i) w = (Return None, w1) ->
  process_pair pair i w = (Return tt, w1).
Proof. intros Hg. unfold process_pair, bind. rewrite Hg. reflexivity. Qed.

Lemma process_pair_data (pair : string) (i : pair_input) (w w1 : world)
    (d : market_data) :
  get_market_data pair false (reply i) w = (Return (Some d), w1) ->
  exists w',
    process_pair pair i w = (Return tt, w')
    /\ sends (trace w')
       = sends (trace w1)
           ++ match fst (analyze_pair pair w1) with
              | Return (Some a) =>
                  if telegram_bot (self w1)
                  then [(pair, format_message a pair)] else []
              | _ => []
              end.
Proof.
  intros Hg.
  pose proof (get_market_data_effect pair false (reply i) w) as He.
  rewrite Hg in He. cbn [fst snd] in He. destruct He as (_ & _ & [h Hh]).
  unfold process_pair, bind. rewrite Hg.
  destruct (analyze_pair_returns pair w1 h Hh) as [res Hres].
  pose proof (analyze_pair_frame pair w1) as (Hself & Hsends).
  destruct (analyze_pair pair w1) as [r w2]. cbn [fst snd] in *. subst r.
  destruct res as [a|].
  - destruct (rsi_info_frame a pair w2) as (w3 & Hi & Hs3 & Ht3).
    rewrite Hi.
    destruct (notify_sends a pair (delivered i) w3) as (w4 & Hn & Hs4 & _).
    rewrite Hn. eexists. split; [reflexivity|].
    rewrite Hs4, Ht3, Hsends, Hs3, Hself. reflexivity.
  - eexists. split; [reflexivity|]. rewrite app_nil_r. exact Hsends.
Qed.

(** An exception leaves the processing of an instrument only when the
    fetch raised it. *)
Lemma process_pair_raises (pair : string) (i : pair_input) (w w1 : world)
    (e : exn) :
  process_pair pair i w = (Raise e, w1) ->
  get_market_data pair false (reply i) w = (Raise e, w1).
Proof.
  intros Hp.
  destruct (get_market_data pair false (reply i) w) as [[[d|]|e'] w'] eqn:Hg.
  - destruct (process_pair_data pair i w w' d Hg) as (w'' & Hp' & _).
    congruence.
  - rewrite (process_pair_no_data pair i w w' Hg) in Hp. discriminate.
  - rewrite (process_pair_fetch_raises pair i w w' e' Hg) in Hp.
    injection Hp as -> ->. reflexivity.
Qed.

(** Messages already sent stay in the trace. *)
Lemma process_pair_sends (pair : string) (i : pair_input) (w : world) :
  exists more,
    sends (trace (snd (process_pair pair i w))) = sends (trace w) ++ more.
Proof.
  pose proof (get_market_data_effect pair false (reply i) w) as (_ & Hs & _).
  destruct (get_market_data pair false (reply i) w) as [[[d|]|e'] w'] eqn:Hg;
    cbn [snd] in Hs.
  - destruct (process_pair_data pair i w w' d Hg) as (w'' & Hp' & Hs').
    rewrite Hp'. cbn [snd]. rewrite Hs', Hs. eauto.
  - rewrite (process_pair_no_data pair i w w' Hg). cbn [snd].
    exists []. rewrite app_nil_r. exact Hs.
  - rewrite (process_pair_fetch_raises pair i w w' e' Hg). cbn [snd].
    exists []. rewrite app_nil_r. exact Hs.
Qed.

Lemma process_pair_client (pair : string) (i : pair_input) (w : world) :
  telegram_bot (self (snd (process_pair pair i w))) = telegram_bot (self w).
Proof.
  pose proof (get_market_data_client pair false (reply i) w) as Hc.
  unfold process_pair, bind, ret.
  destruct (get_market_data pair false (reply i) w) as [[[d|]|e] w1];
    cbn [snd] in *; try exact Hc.
  pose proof (analyze_pair_frame pair w1) as (Hs & _).
  destruct (analyze_pair pair w1) as [[[a|]|e] w2]; cbn [snd] in *;
    try (rewrite Hs; exact Hc).
  destruct (rsi_info_frame a pair w2) as (w3 & Hi & Hs3 & _). rewrite Hi.
  destruct (notify_sends a pair (delivered i) w3) as (w4 & Hn & _ & _ & Hc4).
  rewrite Hn. cbn [snd]. rewrite Hc4, Hs3, Hs. exact Hc.
Qed.

(** ** The cycle (lines 178-209) *)

Lemma for_pairs_app (l1 l2 : list string) (k : nat)
    (env : nat -> pair_input) (w : world) :
  for_pairs (l1 ++ l2) k env w
  = match for_pairs l1 k env w with
    | (Return _, w1) => for_pairs l2 (k + length l1) env w1
    | (Raise e, w1) => (Raise e, w1)
    end.
Proof.
  revert k w. induction l1 as [|p l1 IH]; intros k w.
  - cbn. rewrite Nat.add_0_r. reflexivity.
  - cbn [app for_pairs length]. unfold bind.
    destruct (process_pair p (env k) w) as [[[]|e] w1]; [|reflexivity].
    rewrite IH. replace (S k + length l1)%nat with (k + S (length l1))%nat by lia.
    reflexivity.
Qed.

Lemma for_pairs_sends (l : list string) (k : nat) (env : nat -> pair_input)
    (w : world) :
  exists more,
    sends (trace (snd (for_pairs l k env w))) = sends (trace w) ++ more.
Proof.
  revert k w. induction l as [|p l IH]; intros k w.
  - exists []. cbn. rewrite app_nil_r. reflexivity.
  - cbn [for_pairs]. unfold bind.
    destruct (process_pair_sends p (env k) w) as [m1 H1].
    destruct (process_pair p (env k) w) as [[[]|e] w1]; cbn [snd] in *.
    + destruct (IH (S k) w1) as [m2 H2]. rewrite H2, H1, <- app_assoc. eauto.
    + eauto.
Qed.

Lemma for_pairs_client (l : list string) (k : nat) (env : nat -> pair_input)
    (w : world) :
  telegram_bot (self (snd (for_pairs l k env w))) = telegram_bot (self w).
Proof.
  revert k w. induction l as [|p l IH]; intros k w; [reflexivity|].
  cbn [for_pairs]. unfold bind.
  pose proof (process_pair_client p (env k) w) as H1.
  destruct (process_pair p (env k) w) as [[[]|e] w1]; cbn [snd] in *.
  - rewrite IH. exact H1.
  - exact H1.
Qed.

Lemma cycle_unfold (pairs : list string) (env : nat -> pair_input)
    (w : world) :
  let w0 := mkWorld (self w) (clock w)
              (trace w ++ [EvPrint (LogCycleStarted (clock w))]) in
  cycle pairs env w
  = match for_pairs pairs 0 env w0 with
    | (Return _, w1) =>
        (Return tt,
         mkWorld (self w1) (clock w1 + UPDATE_INTERVAL)%Q
           ((trace w1 ++ [EvPrint LogWaiting]) ++ [EvSleep UPDATE_INTERVAL]))
    | (Raise e, w1) =>
        (Return tt,
         mkWorld (self w1) (clock w1 + 5)%Q
           ((trace w1 ++ [EvPrint (LogMainLoopError e)]) ++ [EvSleep 5%Q]))
    end.
Proof.
  intros w0. unfold cycle, try_except, bind at 1, time_time.
  unfold bind at 1. unfold print at 1, emit at 1. fold w0.
  unfold bind at 1.
  destruct (for_pairs pairs 0 env w0) as [[[]|e] w1]; reflexivity.
Qed.
End SchedulerFacts.

Section CycleClaims.
Context `{ind : Indicators}.

(** X23. An iteration of the loop never raises. An exception
    leaves the processing of an instrument only when its fetch raised it:
    failures of the request, of the analysis and of the delivery are handled
    where they occur. When the processing of an instrument raises, the
    instruments after it are not processed in that cycle: the handler of the
    loop prints the error and sleeps 5 seconds, and the iteration ends
    there. *)
Theorem escaping_exception_ends_cycle :
  (forall (pairs : list string) (env : nat -> pair_input) (w : world),
      fst (cycle pairs env w) = Return tt)
  /\ (forall (p : string) (i : pair_input) (w w1 : world) (e : exn),
         process_pair p i w = (Raise e, w1) ->
         get_market_data p false (reply i) w = (Raise e, w1))
  /\ (forall (before : list string) (p : string) (after : list string)
             (env : nat -> pair_input) (w w1 w2 : world) (e : exn),
         for_pairs before 0 env
           (mkWorld (self w) (clock w)
              (trace w ++ [EvPrint (LogCycleStarted (clock w))]))
         = (Return tt, w1) ->
         process_pair p (env (length before)) w1 = (Raise e, w2) ->
         cycle (before ++ p :: after) env w
         = (Return tt,
            mkWorld (self w2) (clock w2 + 5)%Q
              ((trace w2 ++ [EvPrint (LogMainLoopError e)])
                 ++ [EvSleep 5%Q]))).
Proof.
  split; [|split].
  - intros pairs env w. rewrite cycle_unfold.
    destruct (for_pairs pairs 0 env _) as [[[]|e] w1]; reflexivity.
  - exact process_pair_raises.
  - intros before p after env w w1 w2 e Hb Hp.
    rewrite cycle_unfold. cbv zeta. rewrite for_pairs_app, Hb.
    cbn [for_pairs Nat.add]. unfold bind. rewrite Hp. reflexivity.
Qed.

(** C9 (amended). For a bot that holds a Telegram client: in an iteration
    that reaches an instrument, when its fetch returns a bar and its
    analysis returns a result, processing it does not raise and hands
    exactly one message to Telegram, delivered or not, which stays in the
    trace of the cycle; for the signal NONE it is the "No Trading
    Opportunity" message. *)
Theorem successful_pair_is_notified
    (before : list string) (p : string) (after : list string)
    (env : nat -> pair_input) (w w1 w2 w3 : world) (d : market_data)
    (a : analysis) :
  telegram_bot (self w) = true ->
  for_pairs before 0 env
    (mkWorld (self w) (clock w)
       (trace w ++ [EvPrint (LogCycleStarted (clock w))]))
  = (Return tt, w1) ->
  get_market_data p false (reply (env (length before))) w1
  = (Return (Some d), w2) ->
  analyze_pair p w2 = (Return (Some a), w3) ->
  exists (w4 : world) (more : list (string * message)),
    process_pair p (env (length before)) w1 = (Return tt, w4)
    /\ sends (trace w4) = sends (trace w1) ++ [(p, format_message a p)]
    /\ sends (trace (snd (cycle (before ++ p :: after) env w)))
       = sends (trace w1) ++ [(p, format_message a p)] ++ more
    /\ (signal a = NONE ->
        format_message a p = NoOpportunity p (timestamp a) (rsi a) (price a)).
Proof.
  intros Hclient Hb Hg Ha.
  destruct (process_pair_data p (env (length before)) w1 w2 d Hg)
    as (w4 & Hp & Hs4).
  rewrite Ha in Hs4. cbn [fst] in Hs4.
  pose proof (get_market_data_effect p false (reply (env (length before))) w1)
    as (_ & Hs2 & _).
  pose proof (get_market_data_client p false (reply (env (length before))) w1)
    as Hc2.
  rewrite Hg in Hs2, Hc2. cbn [snd] in Hs2, Hc2. rewrite Hs2, Hc2 in Hs4.
  pose proof (for_pairs_client before 0 env
                (mkWorld (self w) (clock w)
                   (trace w ++ [EvPrint (LogCycleStarted (clock w))]))) as Hc1.
  rewrite Hb in Hc1. cbn [snd self] in Hc1. rewrite Hc1, Hclient in Hs4.
  destruct (for_pairs_sends after (S (length before)) env w4) as [more Hm].
  exists w4, more. split; [exact Hp|]. split; [exact Hs4|]. split.
  - rewrite cycle_unfold. cbv zeta. rewrite for_pairs_app, Hb.
    cbn [for_pairs Nat.add]. unfold bind. rewrite Hp.
    destruct (for_pairs after (S (length before)) env w4) as [[[]|e] w5];
      cbn [snd trace] in *; rewrite !sends_app; cbn;
      rewrite !app_nil_r, Hm, Hs4, <- app_assoc; reflexivity.
  - intros Hn. unfold format_message. rewrite Hn. reflexivity.
Qed.

(** C10. When the request of an instrument returns no data, or a body
    without ["values"], the fetch returns [None] and the processing of the
    instrument ends there: the world is the one the fetch left, no history
    and no prediction has changed, and nothing was sent. *)
Theorem failed_fetch_skips_instrument (p : string) (i : pair_input)
    (w : world) (data : option payload) :
  fst (api_request (symbol_of p) 1 (reply i)
         (mkWorld (self w) (clock w)
            (trace w ++ [EvPrint (LogFetching p false)])))
  = Return data ->
  data = None \/ (exists d, data = Some d /\ values d = None) ->
  exists w' : world,
    get_market_data p false (reply i) w = (Return None, w')
    /\ process_pair p i w = (Return tt, w')
    /\ price_history (self w') = price_history (self w)
    /\ last_prediction (self w') = last_prediction (self w)
    /\ sends (trace w') = sends (trace w).
Proof.
  intros Hreq Hdata.
  assert (Hf : fetched (reply i) = None).
  { rewrite (fetched_api_request _ _ _ _ _ Hreq).
    destruct Hdata as [->|(d & -> & Hv)]; [reflexivity|exact Hv]. }
  pose proof (get_market_data_effect p false (reply i) w) as (Hl & Hs & Hp).
  pose proof (get_market_data_fetched p false (reply i) w) as Hg.
  cbv zeta in Hg. rewrite Hf in Hg. rewrite Hg in Hl, Hs, Hp.
  cbn [fst snd] in Hl, Hs, Hp.
  eexists. split; [exact Hg|]. split; [|auto].
  apply process_pair_no_data. exact Hg.
Qed.
End CycleClaims.

Lemma escaping_exception_ends_cycle_witness :
  fst (cycle (ind := Sample.indicators) ["EUR/USD"; "USD/JPY"]
         Sample.malformed_first Sample.two_pairs)
  = Return tt.
Proof.
  destruct (escaping_exception_ends_cycle (ind := Sample.indicators))
    as (Hret & _).
  apply Hret.
Defined.

(** C5, the failing input. Two instruments, the bar of the first without
    ["close"]: the [KeyError] of the fetch leaves the processing of the
    first instrument, and the second is neither requested nor notified in
    that cycle and its history is not updated, while with well-formed bars
    both are requested and notified. *)
Lemma malformed_bar_skips_remaining_pairs :
  let bad := snd (cycle (ind := Sample.indicators) ["EUR/USD"; "USD/JPY"]
                    Sample.malformed_first Sample.two_pairs) in
  let good := snd (cycle (ind := Sample.indicators) ["EUR/USD"; "USD/JPY"]
                     Sample.all_good Sample.two_pairs) in
  snd <$> gets (trace good) = ["EUR/USD:FOREX"; "USD/JPY:FOREX"]
  /\ fst <$> sends (trace good) = ["EUR/USD"; "USD/JPY"]
  /\ snd <$> gets (trace bad) = ["EUR/USD:FOREX"]
  /\ sends (trace bad) = []
  /\ price_history (self bad) !! "USD/JPY" = Some Sample.flat
  /\ last (trace bad) = Some (EvSleep 5%Q)
  /\ In (EvPrint (LogMainLoopError KeyError)) (trace bad).
Proof.
  repeat split; try (vm_compute; reflexivity).
  vm_compute. tauto.
Qed.

Lemma successful_pair_is_notified_witness :
  let w' := snd (cycle (ind := Sample.indicators) ["EUR/USD"; "USD/JPY"]
                   Sample.all_good Sample.two_pairs) in
  exists more,
    fst <$> sends (trace w') = ["EUR/USD"] ++ more.
Proof.
  pose (w0 := mkWorld (self Sample.two_pairs) (clock Sample.two_pairs)
                (trace Sample.two_pairs
                   ++ [EvPrint (LogCycleStarted (clock Sample.two_pairs))])).
  pose (g := get_market_data "EUR/USD" false (reply (Sample.all_good 0)) w0).
  pose (an := analyze_pair (ind := Sample.indicators) "EUR/USD" (snd g)).
  destruct (successful_pair_is_notified (ind := Sample.indicators)
              [] "EUR/USD" ["USD/JPY"] Sample.all_good Sample.two_pairs
              w0 (snd g) (snd an)
              (mkData 10 "EUR/USD" "2024-01-01 00:00:00")
              (mkAnalysis NONE 10 nan TIMEFRAME (2001 # 2)))
    as (w4 & more & _ & _ & Hs & _).
  - reflexivity.
  - reflexivity.
  - vm_compute. reflexivity.
  - vm_compute. reflexivity.
  - exists (fst <$> more). cbv zeta. cbn [app] in Hs. rewrite Hs.
    reflexivity.
Defined.

(** C9, counterexample. A bot without a Telegram client and without a
    configured chat, on two instruments whose requests are all answered with
    well-formed bars: in the cycle the fetch returns a bar and the analysis
    a result, and nothing is handed to Telegram. The same holds of a whole
    run of [start], which does not raise; the run with a client hands over
    one message per instrument. *)
Lemma no_client_no_notification :
  let pairs := ["EUR/USD"; "USD/JPY"] in
  let seeds :=
    fun _ : nat => Sample.ok_reply (repeat (Sample.good_bar 10) 15) in
  let run := fun client : bool =>
    start (ind := Sample.indicators) pairs None true seeds [Sample.all_good]
      (mkWorld (init_bot pairs client) 1000 []) in
  let w0 := mkWorld (self Sample.no_client) 1000
              [EvPrint (LogCycleStarted 1000)] in
  let g := get_market_data "EUR/USD" false (reply (Sample.all_good 0)) w0 in
  fst g = Return (Some (mkData 10 "EUR/USD" "2024-01-01 00:00:00"))
  /\ fst (analyze_pair (ind := Sample.indicators) "EUR/USD" (snd g))
     = Return (Some (mkAnalysis NONE 10 nan TIMEFRAME (2001 # 2)))
  /\ sends (trace (snd (cycle (ind := Sample.indicators) pairs
                          Sample.all_good Sample.no_client)))
     = []
  /\ fst (run false) = Return tt
  /\ sends (trace (snd (run false))) = []
  /\ fst <$> sends (trace (snd (run true))) = pairs.
Proof. repeat split; vm_compute; reflexivity. Qed.

Lemma failed_fetch_skips_instrument_witness :
  let w' := snd (get_market_data "EUR/USD" false
                   (reply (Sample.all_timed_out 0)) Sample.two_pairs) in
  process_pair (ind := Sample.indicators) "EUR/USD" (Sample.all_timed_out 0)
    Sample.two_pairs
  = (Return tt, w')
  /\ price_history (self w') = price_history (self Sample.two_pairs)
  /\ sends (trace w') = [].
Proof.
  destruct (failed_fetch_skips_instrument (ind := Sample.indicators)
              "EUR/USD" (Sample.all_timed_out 0) Sample.two_pairs None)
    as (w' & Hg & Hp & Hh & _ & Hs).
  - vm_compute. reflexivity.
  - left. reflexivity.
  - cbv zeta. rewrite Hp, Hg. cbn [snd]. rewrite Hh, Hs. auto.
Defined.

(** * Further properties of the code *)

(** ** api_request (lines 58-91) *)

(** X1. [api_request] never raises; it returns a body exactly when the
    response has status 200, decodes, and carries no ["code"] other than
    200. Timeouts, failed connections, other statuses, undecodable bodies and
    embedded error codes all give [None]. *)
Theorem api_request_never_raises (symbol : string) (n : nat)
    (r : http_reply) (w : world) :
  exists (res : option payload) (w' : world),
    api_request symbol n r w = (Return res, w')
    /\ forall d : payload,
         res = Some d
         <-> outcome r = Response 200 (Some d) /\ accepted d = true.
Proof.
  pose proof (api_request_result symbol n r w) as Hres.
  destruct (api_request symbol n r w) as [res w'] eqn:E.
  cbn [fst] in Hres. subst res. do 2 eexists. split; [reflexivity|].
  intros d. destruct (outcome r) as [| |status [d'|]].
  - split; [discriminate|intros [[=] _]].
  - split; [discriminate|intros [[=] _]].
  - destruct (Z.eqb_spec status 200) as [->|Hne]; cbn [andb].
    + destruct (accepted d') eqn:Ha.
      * split; [intros [= ->]; auto|intros [[= ->] _]; reflexivity].
      * split; [discriminate|intros [[= ->] Hd]; congruence].
    + split; [discriminate|intros [[= Hs _] _]; congruence].
  - split; [discriminate|intros [[=] _]].
Qed.

(** X2. When the clock has not run behind the time of the last answered
    request and the reply takes no negative time, this stays so after the
    call, and every sleep the call makes lasts more than 0 and at most 60
    seconds. *)
Theorem throttle_wait_bounds (symbol : string) (n : nat) (r : http_reply)
    (w : world) :
  (last_api_call (self w) <= clock w)%Q ->
  (0 <= latency r)%Q ->
  let w' := snd (api_request symbol n r w) in
  (last_api_call (self w') <= clock w')%Q
  /\ exists ds : list Q,
       sleeps (trace w') = sleeps (trace w) ++ ds
       /\ Forall (fun d => (0 < d)%Q /\ (d <= 60)%Q) ds.
Proof.
  intros Hclock Hlat.
  destruct (api_request_effect symbol n r w)
    as (_ & _ & Hs & _ & Hc & _ & _ & _ & Hl).
  cbv zeta. rewrite Hs, Hc, Hl. clear Hs Hc Hl.
  destruct (throttled w) eqn:Ht.
  - rewrite (throttle_sleeps w Ht).
    apply throttled_iff in Ht. destruct Ht as [Hidle _].
    cbn [snd self clock trace set_limiter last_api_call].
    split.
    + destruct (responded r); lra.
    + eexists. split.
      * rewrite !sleeps_app. cbn [sleeps omap slept app].
        rewrite app_nil_r. reflexivity.
      * constructor; [|constructor]. split; lra.
  - rewrite (throttle_passes w Ht). cbn [snd]. split.
    + destruct (responded r); lra.
    + exists []. rewrite app_nil_r. split; [reflexivity|constructor].
Qed.

Lemma throttle_wait_bounds_witness :
  let w := mkWorld (mkBot true true ∅ 1000 6 ∅) 1005 [] in
  let w' := snd (api_request "EUR/USD:FOREX" 1 Sample.instant_reply w) in
  (last_api_call (self w') <= clock w')%Q
  /\ exists ds : list Q,
       sleeps (trace w') = sleeps (trace w) ++ ds
       /\ Forall (fun d => (0 < d)%Q /\ (d <= 60)%Q) ds.
Proof.
  apply (throttle_wait_bounds "EUR/USD:FOREX" 1 Sample.instant_reply
           (mkWorld (mkBot true true ∅ 1000 6 ∅) 1005 [])).
  - cbn. unfold Qle. cbn. lia.
  - cbn. unfold Qle. cbn. lia.
Defined.

Lemma not_throttled_below_quota (w : world) :
  api_calls (self w) < RATE_LIMIT -> throttled w = false.
Proof.
  intros Hc. unfold throttled.
  replace (RATE_LIMIT <=? api_calls (self w)) with false
    by (symmetry; apply Z.leb_gt; exact Hc).
  apply andb_false_r.
Qed.

(** X3. While the counter plus the number of requests still to come stays
    within the quota, no request of the sequence is delayed, whatever the
    times between them: every one is issued, nothing sleeps, and the counter
    grows by one per answered request. *)
Theorem requests_within_quota_not_delayed (symbol : string)
    (rs : list (Q * http_reply)) (w : world) :
  api_calls (self w) + Z.of_nat (length rs) <= RATE_LIMIT ->
  let w' := snd (polls symbol rs w) in
  fst (polls symbol rs w) = Return tt
  /\ sleeps (trace w') = sleeps (trace w)
  /\ length (gets (trace w')) = (length (gets (trace w)) + length rs)%nat
  /\ api_calls (self w')
     = api_calls (self w)
       + Z.of_nat (length (filter (fun gr => responded (snd gr) = true) rs)).
Proof.
  revert w. induction rs as [|[g r] rs IH]; intros w Hq.
  - cbn. rewrite Nat.add_0_r, Z.add_0_r. auto.
  - cbn [length] in Hq.
    set (w1 := mkWorld (self w) (clock w + g)%Q (trace w)).
    assert (Ht : throttled w1 = false)
      by (apply not_throttled_below_quota; unfold w1; cbn [self]; lia).
    destruct (api_request_effect symbol 1 r w1)
      as ([res Hres] & Hg & Hs & _ & _ & _ & _ & Hc & _).
    rewrite (throttle_passes w1 Ht) in Hg, Hs, Hc. cbn [snd] in Hg, Hs, Hc.
    assert (Hp : polls symbol ((g, r) :: rs) w
                 = polls symbol rs (snd (api_request symbol 1 r w1))).
    { cbn [polls]. unfold bind at 1. unfold elapse at 1. fold w1.
      unfold bind at 1.
      destruct (api_request symbol 1 r w1) as [res' w2].
      cbn [fst snd] in *. subst res'. reflexivity. }
    cbv zeta. rewrite Hp.
    set (w2 := snd (api_request symbol 1 r w1)) in *.
    assert (Hq2 : api_calls (self w2) + Z.of_nat (length rs) <= RATE_LIMIT)
      by (rewrite Hc; unfold w1; cbn [self]; destruct (responded r); lia).
    destruct (IH w2 Hq2) as (Hr & Hs' & Hg' & Hc').
    split; [exact Hr|]. split; [rewrite Hs', Hs; reflexivity|].
    split.
    + rewrite Hg', Hg, length_app. unfold w1. cbn [trace length]. lia.
    + rewrite Hc', Hc. unfold w1. cbn [self].
      rewrite filter_cons. cbn [snd].
      destruct (decide (responded r = true)) as [Hy|Hn].
      * rewrite Hy. cbn [length]. lia.
      * destruct (responded r); [congruence|]. lia.
Qed.

Lemma requests_within_quota_not_delayed_witness :
  let w := mkWorld (mkBot true true ∅ 0 0 ∅) 1000 [] in
  let w' := snd (polls "EUR/USD:FOREX"
                   (repeat (0%Q, Sample.instant_reply) 6) w) in
  sleeps (trace w') = [] /\ api_calls (self w') = 6.
Proof.
  destruct (requests_within_quota_not_delayed "EUR/USD:FOREX"
              (repeat (0%Q, Sample.instant_reply) 6)
              (mkWorld (mkBot true true ∅ 0 0 ∅) 1000 []))
    as (_ & Hs & _ & Hc).
  - vm_compute. discriminate.
  - cbv zeta. rewrite Hs, Hc. split; reflexivity.
Defined.

(** ** The rolling update (lines 124-126) *)

(** X4. A rolling update always ends with the new price, removes at most the
    oldest element, and grows the list by one only below the capacity: a
    list at or above the capacity keeps its length. *)
Theorem rolling_update_shape (h : list float) (p : float) :
  last (rolling_update h p) = Some p
  /\ length (rolling_update h p)
     = (if (length h <? HISTORY_LENGTH)%nat then S (length h) else length h)
  /\ (rolling_update h p = h ++ [p] \/ rolling_update h p = drop 1 h ++ [p]).
Proof.
  unfold rolling_update. cbv zeta. rewrite length_app. cbn [length].
  destruct (Nat.ltb_spec HISTORY_LENGTH (length h + 1)) as [Hlt|Hge].
  - assert (Hd : drop 1 (h ++ [p]) = drop 1 h ++ [p]).
    { destruct h as [|x h'];
        [exfalso; unfold HISTORY_LENGTH in Hlt; cbn [length] in Hlt; lia|].
      reflexivity. }
    rewrite Hd. split; [apply last_snoc|]. split; [|right; reflexivity].
    rewrite length_app, length_drop. cbn [length].
    destruct (Nat.ltb_spec (length h) HISTORY_LENGTH);
      unfold HISTORY_LENGTH in *; lia.
  - split; [apply last_snoc|]. split; [|left; reflexivity].
    destruct (Nat.ltb_spec (length h) HISTORY_LENGTH);
      rewrite ?length_app; cbn [length]; lia.
Qed.

(** ** The classification (lines 149-154) *)

(** X6. An undefined reading never gives a signal: with [nan] as the
    current or as the previous reading the classification is NONE. *)
Theorem nan_reading_gives_no_signal (c : float) :
  classify c nan = NONE /\ classify nan c = NONE.
Proof.
  unfold classify. split.
  - change (RSI_OVERSOLD <? nan)%float with false.
    change (nan <? RSI_OVERBOUGHT)%float with false.
    rewrite !andb_false_r. reflexivity.
  - change (nan <=? RSI_OVERSOLD)%float with false.
    change (RSI_OVERBOUGHT <=? nan)%float with false.
    reflexivity.
Qed.

(** ** get_market_data (lines 93-129) *)

Lemma requests_app (l k : list event) :
  requests (l ++ k) = requests l ++ requests k.
Proof. apply omap_app. Qed.

Lemma api_request_requests (symbol : string) (n : nat) (r : http_reply)
    (w : world) :
  requests (trace (snd (api_request symbol n r w)))
  = requests (trace w) ++ [(symbol, n)].
Proof.
  assert (Hthr : exists w1, throttle w = (Return tt, w1)
                            /\ requests (trace w1) = requests (trace w)).
  { destruct (throttled w) eqn:Ht.
    - rewrite (throttle_sleeps w Ht). eexists. split; [reflexivity|].
      cbn [trace]. rewrite !requests_app. cbn. rewrite !app_nil_r.
      reflexivity.
    - rewrite (throttle_passes w Ht). eauto. }
  destruct Hthr as (w1 & Hw1 & Hr1).
  unfold api_request, try_except, bind. rewrite Hw1. rewrite <- Hr1.
  unfold request, bind, time_time, emit, elapse, get_self, put_self,
    print, emit, ret, raise.
  destruct r as [lat [| |status [d|]]]; cbn [outcome latency self clock trace];
    try destruct (negb (status =? 200));
    try (destruct (code d) as [c|]; [destruct (negb (c =? 200))|]);
    cbn [fst snd self clock trace];
    rewrite ?requests_app; cbn [requests omap requested app];
    rewrite ?app_nil_r; reflexivity.
Qed.

Lemma ingest_requests (pair : string) (history : bool) (bars : list bar)
    (w : world) :
  requests (trace (snd (ingest pair history bars w))) = requests (trace w).
Proof.
  destruct (ingest pair history bars w) as [[res|e] w'] eqn:E.
  - revert E. unfold ingest, bind, convert, ret, raise.
    destruct bars as [|b0 rest]; [discriminate|].
    destruct (bar_close b0) as [| |c0]; try discriminate.
    destruct (bar_datetime b0) as [| |ts]; try discriminate.
    destruct history.
    + unfold seed, bind.
      destruct (closes_of_pure (reverse (b0 :: rest)) w) as (rc & Hrc & _).
      rewrite Hrc. destruct rc as [cs|e']; [|discriminate].
      unfold get_self, subscript.
      destruct (price_history (self w) !! pair); [|discriminate].
      cbn. intros [= _ <-]. cbn.
      rewrite !requests_app. cbn. rewrite !app_nil_r. reflexivity.
    + destruct (price_history (self w) !! pair) as [h|] eqn:Hh.
      * rewrite (append_present pair c0 h w Hh). cbn. intros [= _ <-]. cbn.
        rewrite !requests_app. cbn. rewrite !app_nil_r. reflexivity.
      * rewrite (append_absent pair c0 w Hh). discriminate.
  - apply ingest_raises in E. subst w'. reflexivity.
Qed.

Lemma get_market_data_requests (pair : string) (history : bool)
    (r : http_reply) (w : world) :
  requests (trace (snd (get_market_data pair history r w)))
  = requests (trace w)
      ++ [(pair +:+ ":FOREX", if history then 100%nat else 1%nat)].
Proof.
  rewrite get_market_data_fetched.
  set (w1 := mkWorld (self w) (clock w)
               (trace w ++ [EvPrint (LogFetching pair history)])).
  pose proof (api_request_requests (symbol_of pair)
                (if history then HISTORY_LENGTH else 1%nat) r w1) as Hr.
  set (w2 := snd (api_request (symbol_of pair)
                    (if history then HISTORY_LENGTH else 1%nat) r w1)) in *.
  assert (H1 : requests (trace w1) = requests (trace w)).
  { unfold w1. cbn [trace]. rewrite requests_app. cbn. apply app_nil_r. }
  rewrite H1 in Hr.
  assert (Hn : (if history then HISTORY_LENGTH else 1%nat)
               = (if history then 100%nat else 1%nat))
    by (destruct history; reflexivity).
  rewrite Hn in Hr. unfold symbol_of in Hr.
  destruct (fetched r) as [bars|].
  - rewrite ingest_requests. exact Hr.
  - cbn [snd trace]. rewrite requests_app. cbn. rewrite app_nil_r. exact Hr.
Qed.

(** X7. Every fetch issues exactly one request, for the symbol
    [pair + ":FOREX"], asking for [HISTORY_LENGTH] bars when seeding and
    for one bar otherwise, whatever the reply turns out to be. *)
Theorem fetch_issues_one_request (pair : string) (history : bool)
    (r : http_reply) (w : world) :
  requests (trace (snd (get_market_data pair history r w)))
  = requests (trace w)
      ++ [(pair +:+ ":FOREX", if history then 100%nat else 1%nat)].
Proof. apply get_market_data_requests. Qed.

(** X8. A rolling fetch answered with well-formed bars returns the close
    and the time of the newest bar only, and replaces the history of the pair
    by its rolling update with that close; the histories of the other pairs,
    the predictions and the messages sent stay as they are. *)
Theorem latest_fetch_appends_newest_close (pair : string) (r : http_reply)
    (w : world) (b0 : bar) (rest : list bar) (c0 : float) (ts : string)
    (h : list float) :
  fetched r = Some (b0 :: rest) ->
  bar_close b0 = Present c0 ->
  bar_datetime b0 = Present ts ->
  price_history (self w) !! pair = Some h ->
  let w' := snd (get_market_data pair false r w) in
  fst (get_market_data pair false r w) = Return (Some (mkData c0 pair ts))
  /\ price_history (self w')
     = <[pair := rolling_update h c0]> (price_history (self w))
  /\ last_prediction (self w') = last_prediction (self w)
  /\ sends (trace w') = sends (trace w).
Proof.
  intros Hf Hc Hd Hh.
  pose proof (get_market_data_effect pair false r w) as (Hl & Hs & _).
  cbv zeta. split; [|split; [|split; assumption]].
  - rewrite get_market_data_fetched, Hf.
    destruct (api_request_frame (symbol_of pair) 1 r
                (mkWorld (self w) (clock w)
                   (trace w ++ [EvPrint (LogFetching pair false)])))
      as (Hp & _).
    rewrite (ingest_latest pair b0 rest c0 ts h _ Hc Hd)
      by (rewrite Hp; exact Hh).
    reflexivity.
  - rewrite get_market_data_fetched, Hf.
    destruct (api_request_frame (symbol_of pair) 1 r
                (mkWorld (self w) (clock w)
                   (trace w ++ [EvPrint (LogFetching pair false)])))
      as (Hp & _).
    rewrite (ingest_latest pair b0 rest c0 ts h _ Hc Hd)
      by (rewrite Hp; exact Hh).
    cbn [snd self set_history price_history]. rewrite Hp. reflexivity.
Qed.

Lemma latest_fetch_appends_newest_close_witness :
  let w' := snd (get_market_data "EUR/USD" false
                   (Sample.ok_reply [Sample.good_bar 7; Sample.good_bar 8])
                   Sample.two_pairs) in
  price_history (self w') !! "EUR/USD" = Some (Sample.flat ++ [7%float])
  /\ price_history (self w') !! "USD/JPY" = Some Sample.flat.
Proof.
  destruct (latest_fetch_appends_newest_close "EUR/USD"
              (Sample.ok_reply [Sample.good_bar 7; Sample.good_bar 8])
              Sample.two_pairs (Sample.good_bar 7) [Sample.good_bar 8]
              7%float "2024-01-01 00:00:00" Sample.flat)
    as (_ & Hp & _).
  - reflexivity.
  - reflexivity.
  - reflexivity.
  - reflexivity.
  - cbv zeta. rewrite Hp. split; reflexivity.
Defined.

(** X9. A fetch that raises has changed no history and no prediction and
    has sent nothing: a batch with a bar that cannot be converted is never
    stored in part. *)
Theorem failed_fetch_is_atomic (pair : string) (history : bool)
    (r : http_reply) (w : world) (e : exn) :
  fst (get_market_data pair history r w) = Raise e ->
  let w' := snd (get_market_data pair history r w) in
  price_history (self w') = price_history (self w)
  /\ last_prediction (self w') = last_prediction (self w)
  /\ sends (trace w') = sends (trace w).
Proof.
  intros He.
  pose proof (get_market_data_effect pair history r w) as (Hl & Hs & Hp).
  rewrite He in Hp. cbv zeta. auto.
Qed.

Lemma failed_fetch_is_atomic_witness :
  let w' := snd (get_market_data "EUR/USD" true
                   (Sample.ok_reply [Sample.good_bar 1; Sample.no_close])
                   Sample.two_pairs) in
  price_history (self w') = price_history (self Sample.two_pairs).
Proof.
  destruct (failed_fetch_is_atomic "EUR/USD" true
              (Sample.ok_reply [Sample.good_bar 1; Sample.no_close])
              Sample.two_pairs KeyError)
    as (Hp & _).
  - vm_compute. reflexivity.
  - exact Hp.
Defined.

(** X10. A fetch for a pair that has no entry in [price_history] raises
    [KeyError] when the reply carries well-formed bars, after the request has
    been made; with a reply that carries no bars it returns [None]. *)
Theorem fetch_for_unknown_pair (pair : string) (history : bool)
    (r : http_reply) (w : world) :
  price_history (self w) !! pair = None ->
  (fetched r = None ->
   fst (get_market_data pair history r w) = Return None)
  /\ (forall (bars : list bar) (cs : list float) (ts : string),
         fetched r = Some bars ->
         bars <> [] ->
         bar_close <$> bars = Present <$> cs ->
         bar_datetime <$> head bars = Some (Present ts) ->
         fst (get_market_data pair history r w) = Raise KeyError).
Proof.
  intros Hh. split.
  - intros Hf. rewrite get_market_data_fetched, Hf. reflexivity.
  - intros bars cs ts Hf Hne Hcs Hd.
    rewrite get_market_data_fetched, Hf.
    set (w1 := mkWorld (self w) (clock w)
                 (trace w ++ [EvPrint (LogFetching pair history)])).
    destruct (api_request_frame (symbol_of pair)
                (if history then HISTORY_LENGTH else 1%nat) r w1)
      as (Hp & _).
    set (w2 := snd (api_request (symbol_of pair)
                      (if history then HISTORY_LENGTH else 1%nat) r w1)) in *.
    assert (Hh2 : price_history (self w2) !! pair = None)
      by (rewrite Hp; exact Hh).
    destruct bars as [|b0 rest]; [congruence|].
    destruct cs as [|c0 cs]; [discriminate|].
    cbn in Hd. injection Hd as Hd.
    assert (Hc : bar_close b0 = Present c0) by (injection Hcs; auto).
    unfold ingest, bind, convert, ret. rewrite Hc, Hd.
    destruct history.
    + unfold seed, bind.
      rewrite (closes_of_present (reverse (b0 :: rest)) (reverse (c0 :: cs)))
        by (rewrite !fmap_reverse, Hcs; reflexivity).
      unfold get_self, subscript. rewrite Hh2. reflexivity.
    + rewrite (append_absent pair c0 w2 Hh2). reflexivity.
Qed.

Lemma fetch_for_unknown_pair_witness :
  fst (get_market_data "GBP/USD" false (Sample.ok_reply [Sample.good_bar 7])
         Sample.two_pairs)
  = Raise KeyError.
Proof.
  destruct (fetch_for_unknown_pair "GBP/USD" false
              (Sample.ok_reply [Sample.good_bar 7]) Sample.two_pairs)
    as (_ & Hr).
  - reflexivity.
  - apply (Hr [Sample.good_bar 7] [7%float] "2024-01-01 00:00:00");
      [reflexivity|discriminate|reflexivity|reflexivity].
Defined.

Lemma bounded_ext (b b' : bot) :
  price_history b' = price_history b -> bounded b -> bounded b'.
Proof. unfold bounded. intros ->. auto. Qed.

Lemma ingest_latest_inv (pair : string) (bars : list bar) (w w' : world)
    (res : option market_data) :
  ingest pair false bars w = (Return res, w') ->
  exists b0 rest c0 ts h,
    bars = b0 :: rest /\ bar_close b0 = Present c0
    /\ bar_datetime b0 = Present ts
    /\ price_history (self w) !! pair = Some h.
Proof.
  destruct bars as [|b0 rest]; [discriminate|].
  destruct (bar_close b0) as [| |c0] eqn:Hc;
    try (unfold ingest, bind, convert, ret, raise; rewrite Hc; discriminate).
  destruct (bar_datetime b0) as [| |ts] eqn:Hd;
    try (unfold ingest, bind, convert, ret, raise; rewrite Hc, Hd;
         discriminate).
  destruct (price_history (self w) !! pair) as [h|] eqn:Hh.
  - intros _. exists b0, rest, c0, ts, h. auto.
  - unfold ingest, bind, convert, ret, raise. rewrite Hc, Hd.
    rewrite (append_absent pair c0 w Hh). discriminate.
Qed.

Lemma get_market_data_bounded (pair : string) (r : http_reply) (w : world) :
  bounded (self w) ->
  bounded (self (snd (get_market_data pair false r w))).
Proof.
  intros Hb. rewrite get_market_data_fetched.
  set (w1 := mkWorld (self w) (clock w)
               (trace w ++ [EvPrint (LogFetching pair false)])).
  destruct (api_request_frame (symbol_of pair) 1 r w1) as (Hp & _).
  set (w2 := snd (api_request (symbol_of pair) 1 r w1)) in *.
  assert (Hb2 : bounded (self w2))
    by (apply (bounded_ext (self w)); [exact Hp|exact Hb]).
  destruct (fetched r) as [bars|]; [|exact Hb2].
  destruct (ingest pair false bars w2) as [[res|e] w3] eqn:E; cbn [snd].
  - destruct (ingest_latest_inv _ _ _ _ _ E)
      as (b0 & rest & c0 & ts & h & -> & Hc & Hd & Hh).
    rewrite (ingest_latest pair b0 rest c0 ts h w2 Hc Hd Hh) in E.
    injection E as _ <-. cbn [self].
    apply bounded_set_history; [exact Hb2|].
    apply rolling_update_length. exact (Hb2 pair h Hh).
  - apply ingest_raises in E. subst w3. exact Hb2.
Qed.

Section MoreSchedulerFacts.
Context `{ind : Indicators}.

(** The analysis issues no request and does not advance the clock. *)
Lemma analyze_body_quiet (pair : string) (h : list float) (w : world) :
  let w' := snd (analyze_body pair h w) in
  requests (trace w') = requests (trace w) /\ clock w' = clock w.
Proof.
  unfold analyze_body.
  destruct (ta_rsi h RSI_PERIOD) as [| |s]; try (split; reflexivity).
  destruct (length s =? 0)%nat; [split; reflexivity|].
  unfold bind.
  destruct (readings_pure s) as [[rs|e] Hr]; rewrite Hr;
    [|split; reflexivity].
  destruct (from_end_pure h 1) as [[x|e] H1]; rewrite H1;
    [|split; reflexivity].
  destruct (price_change_of_pure h) as [[c|e] Hc]; rewrite Hc;
    [|split; reflexivity].
  cbn. rewrite requests_app. cbn. rewrite app_nil_r. split; reflexivity.
Qed.

Lemma analyze_pair_quiet (pair : string) (w : world) :
  let w' := snd (analyze_pair pair w) in
  requests (trace w') = requests (trace w) /\ clock w' = clock w.
Proof.
  unfold analyze_pair, bind, get_self, subscript.
  destruct (price_history (self w) !! pair) as [h|]; [|split; reflexivity].
  unfold ret.
  destruct (length h <? RSI_PERIOD + 1)%nat.
  - cbn. rewrite requests_app. cbn. rewrite app_nil_r. split; reflexivity.
  - unfold try_except.
    pose proof (analyze_body_quiet pair h w) as Hb.
    destruct (analyze_body pair h w) as [[res|e] w1]; cbn [snd] in *;
      [exact Hb|].
    destruct Hb as [Hs Ht]. cbn. rewrite requests_app. cbn.
    rewrite app_nil_r. auto.
Qed.

Lemma rsi_info_quiet (a : analysis) (pair : string) (w : world) :
  requests (trace (snd (rsi_info a pair w))) = requests (trace w).
Proof.
  unfold rsi_info, try_except, bind, get_self, subscript.
  destruct (price_history (self w) !! pair) as [h|].
  - unfold ret. destruct (ta_rsi h RSI_PERIOD) as [| |s].
    + cbn. rewrite requests_app. cbn. apply app_nil_r.
    + cbn. rewrite requests_app. cbn. apply app_nil_r.
    + destruct (1 <? length s)%nat.
      * destruct (from_end_pure s 2) as [[y|e] H2]; rewrite H2;
          cbn; rewrite requests_app; cbn; apply app_nil_r.
      * cbn. rewrite requests_app. cbn. apply app_nil_r.
  - cbn. rewrite requests_app. cbn. apply app_nil_r.
Qed.

Lemma notify_effect (a : analysis) (pair : string) (d : bool) (w : world) :
  let w' := snd (notify a pair d w) in
  requests (trace w') = requests (trace w)
  /\ last_prediction (self w')
     = match signal a with
       | NONE => last_prediction (self w)
       | _ => <[pair := a]> (last_prediction (self w))
       end.
Proof.
  unfold notify, send_signal, try_except, bind, emit, print, emit, get_self,
    put_self, ret, raise.
  destruct (telegram_bot (self w)), d, (signal a); cbn;
    rewrite !requests_app; cbn; rewrite ?app_nil_r; auto.
Qed.

(** What [process_pair] does once the fetch has returned a bar. *)
Lemma process_pair_after_fetch (pair : string) (i : pair_input)
    (w w1 : world) (d : market_data) :
  get_market_data pair false (reply i) w = (Return (Some d), w1) ->
  process_pair pair i w
  = match analyze_pair pair w1 with
    | (Return (Some a), w2) =>
        notify a pair (delivered i) (snd (rsi_info a pair w2))
    | (Return None, w2) => (Return tt, w2)
    | (Raise e, w2) => (Raise e, w2)
    end.
Proof.
  intros Hg. unfold process_pair, bind. rewrite Hg.
  destruct (analyze_pair pair w1) as [[[a|]|e] w2]; try reflexivity.
  destruct (rsi_info_frame a pair w2) as (w3 & Hi & _). rewrite Hi.
  reflexivity.
Qed.

Lemma process_pair_requests (pair : string) (i : pair_input) (w : world) :
  requests (trace (snd (process_pair pair i w)))
  = requests (trace w) ++ [(pair +:+ ":FOREX", 1%nat)].
Proof.
  pose proof (get_market_data_requests pair false (reply i) w) as Hr.
  destruct (get_market_data pair false (reply i) w) as [[[d|]|e'] w1] eqn:Hg;
    cbn [snd] in Hr.
  - rewrite (process_pair_after_fetch pair i w w1 d Hg).
    pose proof (analyze_pair_quiet pair w1) as (Ha & _).
    destruct (analyze_pair pair w1) as [[[a|]|e] w2]; cbn [snd] in *.
    + destruct (notify_effect a pair (delivered i) (snd (rsi_info a pair w2)))
        as (Hn & _).
      rewrite Hn, rsi_info_quiet, Ha. exact Hr.
    + rewrite Ha. exact Hr.
    + rewrite Ha. exact Hr.
  - rewrite (process_pair_no_data pair i w w1 Hg). exact Hr.
  - rewrite (process_pair_fetch_raises pair i w w1 e' Hg). exact Hr.
Qed.

Lemma process_pair_bounded (pair : string) (i : pair_input) (w : world) :
  bounded (self w) -> bounded (self (snd (process_pair pair i w))).
Proof.
  intros Hb.
  pose proof (get_market_data_bounded pair (reply i) w Hb) as Hb1.
  destruct (get_market_data pair false (reply i) w) as [[[d|]|e'] w1] eqn:Hg;
    cbn [snd] in Hb1.
  - rewrite (process_pair_after_fetch pair i w w1 d Hg).
    pose proof (analyze_pair_frame pair w1) as (Ha & _).
    destruct (analyze_pair pair w1) as [[[a|]|e] w2]; cbn [snd] in *.
    + destruct (rsi_info_frame a pair w2) as (w3 & Hi & Hs3 & _).
      rewrite Hi. cbn [snd].
      destruct (notify_sends a pair (delivered i) w3) as (w4 & Hn & _ & Hp & _).
      rewrite Hn. cbn [snd].
      apply (bounded_ext (self w1)); [|exact Hb1].
      rewrite Hp, Hs3, Ha. reflexivity.
    + rewrite Ha. exact Hb1.
    + rewrite Ha. exact Hb1.
  - rewrite (process_pair_no_data pair i w w1 Hg). exact Hb1.
  - rewrite (process_pair_fetch_raises pair i w w1 e' Hg). exact Hb1.
Qed.

Lemma for_pairs_bounded (l : list string) (k : nat) (env : nat -> pair_input)
    (w : world) :
  bounded (self w) -> bounded (self (snd (for_pairs l k env w))).
Proof.
  revert k w. induction l as [|p l IH]; intros k w Hb; [exact Hb|].
  cbn [for_pairs]. unfold bind.
  pose proof (process_pair_bounded p (env k) w Hb) as H1.
  destruct (process_pair p (env k) w) as [[[]|e] w1]; cbn [snd] in *.
  - apply IH. exact H1.
  - exact H1.
Qed.

Lemma cycle_bounded (pairs : list string) (env : nat -> pair_input)
    (w : world) :
  bounded (self w) -> bounded (self (snd (cycle pairs env w))).
Proof.
  intros Hb. rewrite cycle_unfold.
  set (w0 := mkWorld (self w) (clock w)
               (trace w ++ [EvPrint (LogCycleStarted (clock w))])).
  pose proof (for_pairs_bounded pairs 0 env w0 Hb) as H1.
  destruct (for_pairs pairs 0 env w0) as [[[]|e] w1]; exact H1.
Qed.

Lemma cycle_returns (pairs : list string) (env : nat -> pair_input)
    (w : world) :
  fst (cycle pairs env w) = Return tt.
Proof.
  rewrite cycle_unfold.
  destruct (for_pairs pairs 0 env _) as [[[]|e] w1]; reflexivity.
Qed.

Lemma cycles_returns (pairs : list string) (envs : list (nat -> pair_input))
    (w : world) :
  fst (cycles pairs envs w) = Return tt.
Proof.
  revert w. induction envs as [|env envs IH]; intros w; [reflexivity|].
  cbn [cycles]. unfold bind.
  pose proof (cycle_returns pairs env w) as Hc.
  destruct (cycle pairs env w) as [[[]|e] w1]; cbn [fst] in Hc;
    [apply IH|discriminate].
Qed.

Lemma cycles_bounded (pairs : list string) (envs : list (nat -> pair_input))
    (w : world) :
  bounded (self w) -> bounded (self (snd (cycles pairs envs w))).
Proof.
  revert w. induction envs as [|env envs IH]; intros w Hb; [exact Hb|].
  cbn [cycles]. unfold bind.
  pose proof (cycle_bounded pairs env w Hb) as H1.
  destruct (cycle pairs env w) as [[[]|e] w1]; cbn [snd] in *.
  - apply IH. exact H1.
  - exact H1.
Qed.

Lemma for_pairs_requests (l : list string) (k : nat) (env : nat -> pair_input)
    (w : world) :
  exists n : nat,
    (n <= length l)%nat
    /\ requests (trace (snd (for_pairs l k env w)))
       = requests (trace w)
           ++ ((fun p => (p +:+ ":FOREX", 1%nat)) <$> take n l)
    /\ (fst (for_pairs l k env w) = Return tt -> n = length l).
Proof.
  revert k w. induction l as [|p l IH]; intros k w.
  - exists 0%nat. cbn. rewrite app_nil_r. auto.
  - cbn [for_pairs]. unfold bind.
    pose proof (process_pair_requests p (env k) w) as H1.
    destruct (process_pair p (env k) w) as [[[]|e] w1]; cbn [snd] in *.
    + destruct (IH (S k) w1) as (n & Hn & Hr & Hf).
      exists (S n). cbn [length take fmap list_fmap].
      split; [lia|]. split.
      * rewrite Hr, H1, <- app_assoc. reflexivity.
      * intros Hret. rewrite (Hf Hret). reflexivity.
    + exists 1%nat. cbn [length take fmap list_fmap]. split; [lia|].
      split; [rewrite take_0; exact H1|discriminate].
Qed.

Lemma for_pairs_failed (l : list string) (k : nat) (env : nat -> pair_input)
    (w : world) :
  (forall j, fetched (reply (env j)) = None) ->
  let w' := snd (for_pairs l k env w) in
  fst (for_pairs l k env w) = Return tt
  /\ price_history (self w') = price_history (self w)
  /\ last_prediction (self w') = last_prediction (self w)
  /\ sends (trace w') = sends (trace w).
Proof.
  intros Hf. revert k w. induction l as [|p l IH]; intros k w.
  - cbn. auto.
  - cbn [for_pairs]. unfold bind.
    pose proof (fetch_without_bars p false (reply (env k)) w (Hf k)) as Hn.
    pose proof (get_market_data_effect p false (reply (env k)) w)
      as (Hl & Hs & Hp).
    destruct (get_market_data p false (reply (env k)) w) as [res w1] eqn:Hg.
    cbn [fst snd] in *. subst res.
    rewrite (process_pair_no_data p (env k) w w1 Hg).
    destruct (IH (S k) w1) as (H1 & H2 & H3 & H4). cbv zeta in *.
    destruct (for_pairs l (S k) env w1) as [r w2]. cbn [fst snd] in *.
    subst r. repeat split; congruence.
Qed.
End MoreSchedulerFacts.

Section AnalysisExtras.
Context `{ind : Indicators}.

(** ** analyze_pair (lines 131-167) *)

(** X11. The analysis reads the bot and prints, nothing else: it leaves every
    attribute of the bot and the clock as they are, sends no message and
    issues no request. The only exception that leaves it is the [KeyError]
    of a pair that has no entry in [price_history]. *)
Theorem analyze_pair_read_only (pair : string) (w : world) :
  let w' := snd (analyze_pair pair w) in
  self w' = self w
  /\ clock w' = clock w
  /\ sends (trace w') = sends (trace w)
  /\ requests (trace w') = requests (trace w)
  /\ (forall e, fst (analyze_pair pair w) = Raise e ->
                e = KeyError /\ price_history (self w) !! pair = None)
  /\ (price_history (self w) !! pair = None ->
      analyze_pair pair w = (Raise KeyError, w)).
Proof.
  cbv zeta.
  destruct (analyze_pair_frame pair w) as (Hs & Ht).
  destruct (analyze_pair_quiet pair w) as (Hr & Hc).
  repeat split; try assumption.
  - destruct (price_history (self w) !! pair) as [h|] eqn:Hh.
    + destruct (analyze_pair_returns pair w h Hh) as [res Hres]. congruence.
    + revert H. unfold analyze_pair, bind, get_self, subscript. rewrite Hh.
      cbn. congruence.
  - destruct (price_history (self w) !! pair) as [h|] eqn:Hh; [|reflexivity].
    destruct (analyze_pair_returns pair w h Hh) as [res Hres]. congruence.
  - intros Hh. unfold analyze_pair, bind, get_self, subscript. rewrite Hh.
    reflexivity.
Qed.

(** X12. With enough history, a failure of the oscillator library gives no
    result: when [ta.rsi] raises, the analysis prints the error and returns
    [None]; when it returns [None] or an empty series, the analysis returns
    [None] and prints nothing. *)
Theorem oscillator_failure_gives_no_result (pair : string) (w : world)
    (h : list float) :
  price_history (self w) !! pair = Some h ->
  (RSI_PERIOD + 1 <= length h)%nat ->
  (ta_rsi h RSI_PERIOD = RsiRaises ->
   analyze_pair pair w
   = (Return None,
      mkWorld (self w) (clock w)
        (trace w ++ [EvPrint (LogAnalysisError pair LibraryError)])))
  /\ (ta_rsi h RSI_PERIOD = RsiNone \/ ta_rsi h RSI_PERIOD = RsiSeries [] ->
      analyze_pair pair w = (Return None, w)).
Proof.
  intros Hh Hlen.
  assert (Hl : (length h <? RSI_PERIOD + 1)%nat = false)
    by (apply Nat.ltb_ge; exact Hlen).
  split.
  - intros Hr. unfold analyze_pair, bind, get_self, subscript.
    rewrite Hh. unfold ret. rewrite Hl.
    unfold try_except, analyze_body. rewrite Hr. reflexivity.
  - intros [Hr|Hr]; unfold analyze_pair, bind, get_self, subscript;
      rewrite Hh; unfold ret; rewrite Hl;
      unfold try_except, analyze_body; rewrite Hr; destruct w; reflexivity.
Qed.
End AnalysisExtras.

Lemma oscillator_failure_gives_no_result_witness :
  fst (analyze_pair (ind := Sample.failing) "EUR/USD" Sample.two_pairs)
  = Return None.
Proof.
  destruct (oscillator_failure_gives_no_result (ind := Sample.failing)
              "EUR/USD" Sample.two_pairs Sample.flat)
    as (Hr & _).
  - reflexivity.
  - vm_compute. lia.
  - rewrite Hr; reflexivity.
Defined.

Section ProcessExtras.
Context `{ind : Indicators}.

(** ** start: the body of the loop (lines 182-202) *)

(** X13. When the fetch returns a bar and the analysis a result, the result
    is stored in [last_prediction] exactly when its signal is a call or a
    put, whether or not the message could be delivered; the histories stay as
    the fetch left them. *)
Theorem process_pair_records_prediction (p : string) (i : pair_input)
    (w : world) (d : market_data) (a : analysis) :
  fst (get_market_data p false (reply i) w) = Return (Some d) ->
  fst (analyze_pair p (snd (get_market_data p false (reply i) w)))
  = Return (Some a) ->
  let w' := snd (process_pair p i w) in
  fst (process_pair p i w) = Return tt
  /\ last_prediction (self w')
     = match signal a with
       | NONE => last_prediction (self w)
       | _ => <[p := a]> (last_prediction (self w))
       end
  /\ price_history (self w')
     = price_history (self (snd (get_market_data p false (reply i) w))).
Proof.
  intros Hg Ha. cbv zeta.
  pose proof (get_market_data_effect p false (reply i) w) as (Hl & _).
  destruct (get_market_data p false (reply i) w) as [r w1] eqn:Eg.
  cbn [fst snd] in *. subst r.
  rewrite (process_pair_after_fetch p i w w1 d Eg).
  pose proof (analyze_pair_frame p w1) as (Hs & _).
  destruct (analyze_pair p w1) as [r w2]. cbn [fst snd] in *. subst r.
  destruct (rsi_info_frame a p w2) as (w3 & Hi & Hs3 & _).
  rewrite Hi. cbn [snd].
  destruct (notify_effect a p (delivered i) w3) as (_ & Hn).
  destruct (notify_sends a p (delivered i) w3) as (w4 & En & _ & Hp & _).
  rewrite En in *. cbn [fst snd] in *.
  split; [reflexivity|]. split.
  - rewrite Hn, Hs3, Hs, Hl. reflexivity.
  - rewrite Hp, Hs3, Hs. reflexivity.
Qed.

(** X14. While a pair has fewer than [RSI_PERIOD] closes, a cycle step that
    fetches a well-formed bar only grows its history: no message is sent and
    no prediction is recorded. *)
Theorem short_history_sends_nothing (p : string) (i : pair_input) (w : world)
    (b0 : bar) (rest : list bar) (c0 : float) (ts : string)
    (h : list float) :
  fetched (reply i) = Some (b0 :: rest) ->
  bar_close b0 = Present c0 ->
  bar_datetime b0 = Present ts ->
  price_history (self w) !! p = Some h ->
  (length h < RSI_PERIOD)%nat ->
  let w' := snd (process_pair p i w) in
  fst (process_pair p i w) = Return tt
  /\ price_history (self w') = <[p := h ++ [c0]]> (price_history (self w))
  /\ last_prediction (self w') = last_prediction (self w)
  /\ sends (trace w') = sends (trace w).
Proof.
  intros Hf Hc Hd Hh Hlen. cbv zeta.
  pose proof (get_market_data_effect p false (reply i) w) as (Hl & Hs & _).
  assert (Hg : exists w1,
             get_market_data p false (reply i) w
             = (Return (Some (mkData c0 p ts)), w1)
             /\ price_history (self w1)
                = <[p := h ++ [c0]]> (price_history (self w))).
  { rewrite get_market_data_fetched, Hf.
    destruct (api_request_frame (symbol_of p) 1 (reply i)
                (mkWorld (self w) (clock w)
                   (trace w ++ [EvPrint (LogFetching p false)])))
      as (Hp & _).
    rewrite (ingest_latest p b0 rest c0 ts h _ Hc Hd)
      by (rewrite Hp; exact Hh).
    eexists. split; [reflexivity|].
    cbn [self set_history price_history]. rewrite Hp.
    unfold rolling_update.
    replace (HISTORY_LENGTH <? length (h ++ [c0]))%nat with false;
      [reflexivity|].
    symmetry. apply Nat.ltb_ge. rewrite length_app. cbn [length].
    unfold RSI_PERIOD, HISTORY_LENGTH in *. lia. }
  destruct Hg as (w1 & Eg & Hp1). rewrite Eg in *. cbn [snd] in *.
  rewrite (process_pair_after_fetch p i w w1 _ Eg).
  assert (Ha : analyze_pair p w1
               = (Return None,
                  mkWorld (self w1) (clock w1)
                    (trace w1
                       ++ [EvPrint (LogInsufficient p (length (h ++ [c0])))]))).
  { unfold analyze_pair, bind, get_self, subscript.
    rewrite Hp1, lookup_insert_eq. unfold ret.
    replace (length (h ++ [c0]) <? RSI_PERIOD + 1)%nat with true;
      [reflexivity|].
    symmetry. apply Nat.ltb_lt. rewrite length_app. cbn [length].
    unfold RSI_PERIOD in *. lia. }
  rewrite Ha. cbn [fst snd self trace].
  split; [reflexivity|]. split; [exact Hp1|]. split; [exact Hl|].
  rewrite sends_app. cbn. rewrite app_nil_r. exact Hs.
Qed.

(** ** start: the loop (lines 169-209) *)

(** X15. The steady loop keeps the capacity: when every stored history holds
    at most [HISTORY_LENGTH] closes, so it does after any number of cycles,
    whatever the provider and Telegram answer. *)
Theorem cycles_keep_capacity (pairs : list string)
    (envs : list (nat -> pair_input)) (w : world) :
  bounded (self w) ->
  bounded (self (snd (cycles pairs envs w))).
Proof. apply cycles_bounded. Qed.

(** X17. In one cycle the bot asks for the pairs in the order of the list,
    one bar each and each pair at most once; when the cycle ends with the
    ordinary pause of [UPDATE_INTERVAL] seconds, every pair has been asked
    for. *)
Theorem cycle_requests_in_order (pairs : list string)
    (env : nat -> pair_input) (w : world) :
  let w' := snd (cycle pairs env w) in
  exists n : nat,
    (n <= length pairs)%nat
    /\ requests (trace w')
       = requests (trace w)
           ++ ((fun p => (p +:+ ":FOREX", 1%nat)) <$> take n pairs)
    /\ (last (trace w') = Some (EvSleep UPDATE_INTERVAL) ->
        n = length pairs).
Proof.
  cbv zeta. rewrite cycle_unfold.
  set (w0 := mkWorld (self w) (clock w)
               (trace w ++ [EvPrint (LogCycleStarted (clock w))])).
  destruct (for_pairs_requests pairs 0 env w0) as (n & Hn & Hr & Hf).
  assert (H0 : requests (trace w0) = requests (trace w)).
  { unfold w0. cbn [trace]. rewrite requests_app. cbn. apply app_nil_r. }
  rewrite H0 in Hr.
  exists n. split; [exact Hn|].
  destruct (for_pairs pairs 0 env w0) as [[[]|e] w1]; cbn [fst snd trace] in *.
  - split; [|intros _; apply Hf; reflexivity].
    rewrite !requests_app. cbn. rewrite !app_nil_r. exact Hr.
  - split.
    + rewrite !requests_app. cbn. rewrite !app_nil_r. exact Hr.
    + rewrite last_snoc. discriminate.
Qed.

(** X18. A cycle in which no request yields bars (time-outs, network errors,
    bad statuses, error bodies) changes no history and no prediction, sends
    nothing, has still asked for every pair, and ends with the ordinary pause
    of [UPDATE_INTERVAL] seconds. *)
Theorem cycle_with_failed_requests (pairs : list string)
    (env : nat -> pair_input) (w : world) :
  (forall j, fetched (reply (env j)) = None) ->
  let w' := snd (cycle pairs env w) in
  price_history (self w') = price_history (self w)
  /\ last_prediction (self w') = last_prediction (self w)
  /\ sends (trace w') = sends (trace w)
  /\ requests (trace w')
     = requests (trace w) ++ ((fun p => (p +:+ ":FOREX", 1%nat)) <$> pairs)
  /\ last (trace w') = Some (EvSleep UPDATE_INTERVAL).
Proof.
  intros Hf. cbv zeta. rewrite cycle_unfold.
  set (w0 := mkWorld (self w) (clock w)
               (trace w ++ [EvPrint (LogCycleStarted (clock w))])).
  destruct (for_pairs_failed pairs 0 env w0 Hf) as (Hret & Hp & Hl & Hs).
  destruct (for_pairs_requests pairs 0 env w0) as (n & Hn & Hr & Hall).
  rewrite (Hall Hret), firstn_all in Hr.
  assert (H0 : requests (trace w0) = requests (trace w)).
  { unfold w0. cbn [trace]. rewrite requests_app. cbn. apply app_nil_r. }
  assert (H1 : sends (trace w0) = sends (trace w)).
  { unfold w0. cbn [trace]. rewrite sends_app. cbn. apply app_nil_r. }
  destruct (for_pairs pairs 0 env w0) as [r w1]. cbn [fst snd] in *. subst r.
  cbn [self trace clock snd].
  repeat split.
  - exact Hp.
  - exact Hl.
  - rewrite !sends_app. cbn. rewrite !app_nil_r. congruence.
  - rewrite !requests_app. cbn. rewrite !app_nil_r. congruence.
  - apply last_snoc.
Qed.
End ProcessExtras.

Lemma get_market_data_seed_bounded (pair : string) (r : http_reply)
    (w : world) :
  bounded (self w) ->
  (forall bars, fetched r = Some bars -> (length bars <= HISTORY_LENGTH)%nat) ->
  bounded (self (snd (get_market_data pair true r w))).
Proof.
  intros Hb Hsmall. rewrite get_market_data_fetched.
  set (w1 := mkWorld (self w) (clock w)
               (trace w ++ [EvPrint (LogFetching pair true)])).
  destruct (api_request_frame (symbol_of pair) HISTORY_LENGTH r w1)
    as (Hp & _).
  set (w2 := snd (api_request (symbol_of pair) HISTORY_LENGTH r w1)) in *.
  assert (Hb2 : bounded (self w2))
    by (apply (bounded_ext (self w)); [exact Hp|exact Hb]).
  destruct (fetched r) as [bars|]; [|exact Hb2].
  specialize (Hsmall bars eq_refl).
  destruct (ingest pair true bars w2) as [[res|e] w3] eqn:E; cbn [snd].
  - revert E. unfold ingest, bind, convert, ret, raise.
    destruct bars as [|b0 rest]; [discriminate|].
    destruct (bar_close b0) as [| |c0]; try discriminate.
    destruct (bar_datetime b0) as [| |ts]; try discriminate.
    unfold seed, bind.
    destruct (closes_of_pure (reverse (b0 :: rest)) w2) as (rc & Hrc & Hlen).
    rewrite Hrc. destruct rc as [cs|e']; [|discriminate].
    unfold get_self, subscript.
    destruct (price_history (self w2) !! pair); [|discriminate].
    cbn. intros [= _ <-]. cbn [self].
    apply bounded_set_history; [exact Hb2|].
    rewrite (Hlen cs eq_refl), length_reverse. exact Hsmall.
  - apply ingest_raises in E. subst w3. exact Hb2.
Qed.

Lemma seed_pairs_bounded (pairs : list string) (k : nat)
    (seeds : nat -> http_reply) (w : world) :
  bounded (self w) ->
  (forall j bars, fetched (seeds j) = Some bars ->
                  (length bars <= HISTORY_LENGTH)%nat) ->
  bounded (self (snd (seed_pairs pairs k seeds w))).
Proof.
  intros Hb Hsmall. revert k w Hb.
  induction pairs as [|p l IH]; intros k w Hb; [exact Hb|].
  cbn [seed_pairs]. unfold bind.
  pose proof (get_market_data_seed_bounded p (seeds k) w Hb (Hsmall k)) as H1.
  destruct (get_market_data p true (seeds k) w) as [[res|e] w1];
    cbn [snd] in *.
  - apply IH. exact H1.
  - exact H1.
Qed.

Lemma seed_pairs_failed (pairs : list string) (k : nat)
    (seeds : nat -> http_reply) (w : world) :
  (forall j, fetched (seeds j) = None) ->
  let w' := snd (seed_pairs pairs k seeds w) in
  fst (seed_pairs pairs k seeds w) = Return tt
  /\ price_history (self w') = price_history (self w)
  /\ requests (trace w')
     = requests (trace w)
         ++ ((fun p => (p +:+ ":FOREX", 100%nat)) <$> pairs).
Proof.
  intros Hf. revert k w. induction pairs as [|p l IH]; intros k w.
  - cbn. rewrite app_nil_r. auto.
  - cbn [seed_pairs]. unfold bind.
    pose proof (fetch_without_bars p true (seeds k) w (Hf k)) as Hn.
    pose proof (get_market_data_effect p true (seeds k) w) as (_ & _ & Hp).
    pose proof (get_market_data_requests p true (seeds k) w) as Hr.
    destruct (get_market_data p true (seeds k) w) as [res w1].
    cbn [fst snd] in *. subst res.
    destruct (IH (S k) w1) as (H1 & H2 & H3). cbv zeta in *.
    split; [exact H1|]. split; [congruence|].
    rewrite H3, Hr, <- app_assoc. reflexivity.
Qed.

(** The start-up check changes no attribute of the bot and issues no
    request; it raises exactly when a chat is configured and the bot holds
    no Telegram client. *)
Lemma verify_chat_id_effect (chat : option string) (hello : bool)
    (w : world) :
  let w' := snd (verify_chat_id chat hello w) in
  self w' = self w
  /\ requests (trace w') = requests (trace w)
  /\ fst (verify_chat_id chat hello w)
     = (if truthy chat && negb (telegram_bot (self w))
        then Raise AttributeError else Return tt).
Proof.
  unfold verify_chat_id, try_only, bind, get_self, emit, print, emit, raise,
    ret.
  destruct (truthy chat); cbn; [|auto].
  destruct (telegram_bot (self w)), hello; cbn;
    rewrite ?requests_app; cbn; rewrite ?app_nil_r; auto.
Qed.

Section StartExtras.
Context `{ind : Indicators}.

Lemma start_unfold (pairs : list string) (chat : option string)
    (hello : bool) (seeds : nat -> http_reply)
    (envs : list (nat -> pair_input)) (w : world) :
  let w0 := mkWorld (self w) (clock w) (trace w ++ [EvPrint LogBotStarted]) in
  start pairs chat hello seeds envs w
  = match verify_chat_id chat hello w0 with
    | (Return _, w1) =>
        match seed_pairs pairs 0 seeds w1 with
        | (Return _, w2) => cycles pairs envs w2
        | (Raise e, w2) => (Raise e, w2)
        end
    | (Raise e, w1) => (Raise e, w1)
    end.
Proof.
  intros w0. unfold start, bind at 1, print at 1, emit at 1. fold w0.
  unfold bind at 1.
  destruct (verify_chat_id chat hello w0) as [[[]|e] w1]; [|reflexivity].
  unfold bind at 1. reflexivity.
Qed.

(** X16. The loop itself never raises. [start] ends with an exception
    exactly when the start-up check or, after it, the seeding loop does, with
    that exception; the start-up check raises exactly when a chat is
    configured and the bot holds no Telegram client, and then
    [AttributeError]. *)
Theorem start_fails_only_before_loop (pairs : list string)
    (chat : option string) (hello : bool) (seeds : nat -> http_reply)
    (envs : list (nat -> pair_input)) (w : world) :
  let w0 := mkWorld (self w) (clock w) (trace w ++ [EvPrint LogBotStarted]) in
  (forall w1, fst (cycles pairs envs w1) = Return tt)
  /\ fst (start pairs chat hello seeds envs w)
     = fst ((verify_chat_id chat hello ;; seed_pairs pairs 0 seeds) w0)
  /\ fst (verify_chat_id chat hello w0)
     = (if truthy chat && negb (telegram_bot (self w))
        then Raise AttributeError else Return tt).
Proof.
  intros w0. split; [intros w1; apply cycles_returns|]. split.
  - rewrite start_unfold. fold w0. unfold bind.
    destruct (verify_chat_id chat hello w0) as [[[]|e] w1]; [|reflexivity].
    destruct (seed_pairs pairs 0 seeds w1) as [[[]|e] w2]; cbn [fst];
      [apply cycles_returns|reflexivity].
  - destruct (verify_chat_id_effect chat hello w0) as (_ & _ & Hv).
    exact Hv.
Qed.

(** X19. When every history is within the capacity at the start and the
    provider never answers a seeding request with more than
    [HISTORY_LENGTH] bars, every history is within the capacity when [start]
    ends, however it ends. *)
Theorem start_keeps_capacity (pairs : list string) (chat : option string)
    (hello : bool) (seeds : nat -> http_reply)
    (envs : list (nat -> pair_input)) (w : world) :
  bounded (self w) ->
  (forall j bars, fetched (seeds j) = Some bars ->
                  (length bars <= HISTORY_LENGTH)%nat) ->
  bounded (self (snd (start pairs chat hello seeds envs w))).
Proof.
  intros Hb Hsmall. rewrite start_unfold. cbv zeta.
  set (w0 := mkWorld (self w) (clock w) (trace w ++ [EvPrint LogBotStarted])).
  destruct (verify_chat_id_effect chat hello w0) as (Hs & _).
  destruct (verify_chat_id chat hello w0) as [[[]|e] w1]; cbn [snd] in *;
    [|rewrite Hs; exact Hb].
  assert (Hb1 : bounded (self w1)) by (rewrite Hs; exact Hb).
  pose proof (seed_pairs_bounded pairs 0 seeds w1 Hb1 Hsmall) as H1.
  destruct (seed_pairs pairs 0 seeds w1) as [[[]|e] w2]; cbn [snd] in *.
  - apply cycles_bounded. exact H1.
  - exact H1.
Qed.

(** X20. When no seeding request yields bars, the seeding loop has still
    asked for [HISTORY_LENGTH] bars of every pair, in the order of the list,
    leaves the histories as they were and does not raise; unless the
    start-up check raises (a chat configured, no Telegram client), [start]
    goes on to the cycles and does not raise. *)
Theorem seeding_with_failed_requests (pairs : list string)
    (chat : option string) (hello : bool) (seeds : nat -> http_reply)
    (envs : list (nat -> pair_input)) (w : world) :
  (forall j, fetched (seeds j) = None) ->
  let w' := snd (seed_pairs pairs 0 seeds w) in
  fst (seed_pairs pairs 0 seeds w) = Return tt
  /\ price_history (self w') = price_history (self w)
  /\ requests (trace w')
     = requests (trace w)
         ++ ((fun p => (p +:+ ":FOREX", 100%nat)) <$> pairs)
  /\ (truthy chat && negb (telegram_bot (self w)) = false ->
      fst (start pairs chat hello seeds envs w) = Return tt).
Proof.
  intros Hf. cbv zeta.
  destruct (seed_pairs_failed pairs 0 seeds w Hf) as (Hret & Hp & Hr).
  split; [exact Hret|]. split; [exact Hp|]. split; [exact Hr|].
  intros Hc. rewrite start_unfold. cbv zeta.
  set (w0 := mkWorld (self w) (clock w) (trace w ++ [EvPrint LogBotStarted])).
  destruct (verify_chat_id_effect chat hello w0) as (_ & _ & Hv).
  cbn [self w0] in Hv. rewrite Hc in Hv.
  destruct (verify_chat_id chat hello w0) as [r w1]. cbn [fst] in Hv.
  subst r.
  destruct (seed_pairs_failed pairs 0 seeds w1 Hf) as (Hret1 & _).
  destruct (seed_pairs pairs 0 seeds w1) as [r w2]. cbn [fst] in Hret1.
  subst r. apply cycles_returns.
Qed.
End StartExtras.


Lemma process_pair_records_prediction_witness :
  last_prediction
    (self (snd (process_pair (ind := Sample.indicators) "EUR/USD"
                  (mkInput (Sample.ok_reply [Sample.good_bar 40]) false)
                  (Sample.world_with "EUR/USD"
                     (repeat 20%float 14 ++ [10%float])))))
    !! "EUR/USD"
  = Some (mkAnalysis PUT 40 75 TIMEFRAME (2001 # 2)).
Proof.
  destruct (process_pair_records_prediction (ind := Sample.indicators)
              "EUR/USD"
              (mkInput (Sample.ok_reply [Sample.good_bar 40]) false)
              (Sample.world_with "EUR/USD" (repeat 20%float 14 ++ [10%float]))
              (mkData 40 "EUR/USD" "2024-01-01 00:00:00")
              (mkAnalysis PUT 40 75 TIMEFRAME (2001 # 2)))
    as (_ & Hl & _).
  - vm_compute. reflexivity.
  - vm_compute. reflexivity.
  - rewrite Hl. reflexivity.
Defined.

Lemma short_history_sends_nothing_witness :
  let w' := snd (process_pair (ind := Sample.indicators) "EUR/USD"
                   (mkInput (Sample.ok_reply [Sample.good_bar 7]) true)
                   (Sample.world_with "EUR/USD" [])) in
  price_history (self w') !! "EUR/USD" = Some [7%float]
  /\ sends (trace w') = [].
Proof.
  destruct (short_history_sends_nothing (ind := Sample.indicators) "EUR/USD"
              (mkInput (Sample.ok_reply [Sample.good_bar 7]) true)
              (Sample.world_with "EUR/USD" []) (Sample.good_bar 7) []
              7%float "2024-01-01 00:00:00" [])
    as (_ & Hp & _ & Hs).
  - reflexivity.
  - reflexivity.
  - reflexivity.
  - reflexivity.
  - vm_compute. lia.
  - cbv zeta. rewrite Hp, Hs. split; reflexivity.
Defined.

Lemma cycles_keep_capacity_witness :
  bounded
    (self (snd (cycles (ind := Sample.indicators) ["EUR/USD"; "USD/JPY"]
                  [Sample.all_good; Sample.malformed_first]
                  Sample.two_pairs))).
Proof.
  apply (cycles_keep_capacity (ind := Sample.indicators)).
  intros p h Hp. cbn [Sample.two_pairs self price_history] in Hp.
  apply elem_of_list_to_map_2 in Hp.
  repeat (apply elem_of_cons in Hp as [[= -> ->]|Hp]);
    [vm_compute; lia|vm_compute; lia|].
  apply elem_of_nil in Hp. destruct Hp.
Defined.

Lemma cycle_with_failed_requests_witness :
  let w' := snd (cycle (ind := Sample.indicators) ["EUR/USD"; "USD/JPY"]
                   Sample.all_timed_out Sample.two_pairs) in
  price_history (self w') = price_history (self Sample.two_pairs)
  /\ requests (trace w') = [("EUR/USD:FOREX", 1%nat); ("USD/JPY:FOREX", 1%nat)].
Proof.
  destruct (cycle_with_failed_requests (ind := Sample.indicators)
              ["EUR/USD"; "USD/JPY"] Sample.all_timed_out Sample.two_pairs)
    as (Hp & _ & _ & Hr & _).
  - intros j. reflexivity.
  - cbv zeta. rewrite Hp, Hr. split; reflexivity.
Defined.

Lemma start_keeps_capacity_witness :
  bounded
    (self (snd (start (ind := Sample.indicators) ["EUR/USD"; "USD/JPY"]
                  (Some "1") true
                  (fun _ => Sample.ok_reply [Sample.good_bar 2;
                                             Sample.good_bar 1])
                  [Sample.all_good]
                  (mkWorld (init_bot ["EUR/USD"; "USD/JPY"] true) 1000 [])))).
Proof.
  apply (start_keeps_capacity (ind := Sample.indicators)).
  - apply init_bot_bounded.
  - intros j bars [= <-]. vm_compute. lia.
Defined.

Lemma seeding_with_failed_requests_witness :
  fst (start (ind := Sample.indicators) ["EUR/USD"; "USD/JPY"] None true
         (fun _ => mkReply 5 GetTimedOut) [Sample.all_timed_out]
         (mkWorld (init_bot ["EUR/USD"; "USD/JPY"] false) 1000 []))
  = Return tt.
Proof.
  destruct (seeding_with_failed_requests (ind := Sample.indicators)
              ["EUR/USD"; "USD/JPY"] None true
              (fun _ => mkReply 5 GetTimedOut)
              [Sample.all_timed_out]
              (mkWorld (init_bot ["EUR/USD"; "USD/JPY"] false) 1000 []))
    as (_ & _ & _ & Hs).
  - intros j. reflexivity.
  - apply Hs. reflexivity.
Defined.
